(** * Shallow embedding of translate/storage/tmdb.py (translation memory)

    The SQLite database behind [TMDB] is modelled as two tables,
    [sources] and [targets], with their AUTOINCREMENT counters.  A
    connection holds the [committed] tables and the [working] tables
    (committed plus the pending rows of the open transaction); commit
    and rollback copy one onto the other, as sqlite3 does.  Python code
    that may raise runs in a state-and-exception monad [M]: a Python
    exception does not undo the database statements already executed.

    A Python [str] is a Rocq [string] read as Latin-1: each character is
    one code point U+0000-U+00FF, so [String.length] is Python's [len]. *)

From Stdlib Require Import String Ascii List ZArith QArith Qround Sorted Permutation Lia.
Import ListNotations.

Open Scope Z_scope.
Open Scope string_scope.

(** ** Python values and exceptions *)

(** The values a unit dictionary or a language argument may hold:
    a [str] or [None]. *)
Inductive pyval : Type :=
| PStr (s : string)
| PNone.

(** Python truthiness: [""] and [None] are falsy. *)
Definition truthy (v : pyval) : bool :=
  match v with
  | PStr EmptyString => false
  | PStr _ => true
  | PNone => false
  end.

Inductive exc : Type :=
| IntegrityError            (* dbapi2.IntegrityError: NOT NULL or UNIQUE violated *)
| KeyError (k : string)     (* missing key of a unit dictionary *)
| TypeError                 (* len(None), ",".join([None]), (sid,) = None *)
| ZeroDivisionError         (* length / (0 / 100.0) *)
| OperationalError          (* dbapi2.OperationalError: malformed fulltext MATCH *)
| LanguageError (msg : string).

Definition is_integrity_error (e : exc) : bool :=
  match e with IntegrityError => true | _ => false end.

(** ** Database state *)

Record source_row : Type := mk_source {
  s_sid : Z;
  s_text : string;        (* text VARCHAR NOT NULL *)
  s_context : pyval;      (* context VARCHAR DEFAULT NULL *)
  s_lang : string;        (* lang VARCHAR NOT NULL *)
  s_length : Z            (* length INTEGER NOT NULL *)
}.

Record target_row : Type := mk_target {
  t_tid : Z;
  t_sid : Z;
  t_text : string;        (* text VARCHAR NOT NULL *)
  t_lang : string;        (* lang VARCHAR NOT NULL *)
  t_time : Z
}.

Record tables : Type := mk_tables {
  sources : list source_row;      (* in rowid order *)
  targets : list target_row;      (* in rowid order *)
  sources_seq : Z;                (* sqlite_sequence entry of sources *)
  targets_seq : Z                 (* sqlite_sequence entry of targets *)
}.

Record conn : Type := mk_conn {
  committed : tables;
  working : tables
}.

Definition empty_tables : tables := mk_tables [] [] 0 0.
Definition empty_conn : conn := mk_conn empty_tables empty_tables.

(** ** The state-and-exception monad *)

Definition M (A : Type) : Type := conn -> conn * (exc + A).

Definition ret {A} (a : A) : M A := fun c => (c, inr a).
Definition raise {A} (e : exc) : M A := fun c => (c, inl e).
Definition bind {A B} (m : M A) (k : A -> M B) : M B :=
  fun c => let (c', r) := m c in
           match r with
           | inl e => (c', inl e)
           | inr a => k a c'
           end.

Notation "x <- m ;; k" := (bind m (fun x => k))
  (at level 61, m at next level, right associativity).
Notation "m ;; k" := (bind m (fun _ => k)) (at level 61, right associativity).

(** [try: m  except <caught>: handler] *)
Definition try_except {A} (m : M A) (caught : exc -> bool) (handler : exc -> M A)
  : M A :=
  fun c => let (c', r) := m c in
           match r with
           | inl e => if caught e then handler e c' else (c', inl e)
           | inr a => (c', inr a)
           end.

Definition db_commit : M unit :=
  fun c => (mk_conn (working c) (working c), inr tt).
Definition db_rollback : M unit :=
  fun c => (mk_conn (committed c) (committed c), inr tt).

(** ** SQL comparison: NULL is equal to nothing, not even NULL *)

Definition sql_eq (a b : pyval) : bool :=
  match a, b with
  | PStr x, PStr y => String.eqb x y
  | _, _ => false
  end.

(** ** Language codes *)

Definition lower_ascii (a : ascii) : ascii :=
  let n := nat_of_ascii a in
  if (65 <=? n)%nat && (n <=? 90)%nat then ascii_of_nat (n + 32) else a.

Definition canon_char (a : ascii) : ascii :=
  if Ascii.eqb a "_"%char || Ascii.eqb a "@"%char then "-"%char
  else lower_ascii a.

Fixpoint map_string (f : ascii -> ascii) (s : string) : string :=
  match s with
  | EmptyString => EmptyString
  | String a s' => String (f a) (map_string f s')
  end.

(** Modelled from the spec: [translate.lang.data.normalize_code], which is
    not part of the sources given here.  The spec calls it a case and
    region canonicalisation of language identifiers: a falsy code is
    returned as it is; otherwise the region separators [_] and [@] become
    [-] and letters are lowercased. *)
Definition normalize_code (v : pyval) : pyval :=
  if truthy v then
    match v with
    | PStr s => PStr (map_string canon_char s)
    | PNone => PNone
    end
  else v.

(** ** Unit dictionaries and the statements of [add_dict] *)

(** A dictionary such as [{"source": ..., "target": ..., "context": ...}]. *)
Definition pydict : Type := list (string * pyval).

Fixpoint dict_get (d : pydict) (k : string) : option pyval :=
  match d with
  | [] => None
  | (k', v) :: d' => if String.eqb k k' then Some v else dict_get d' k
  end.

(** [d[k]] *)
Definition getitem (d : pydict) (k : string) : M pyval :=
  match dict_get d k with
  | Some v => ret v
  | None => raise (KeyError k)
  end.

(** [len(v)] *)
Definition py_len (v : pyval) : M Z :=
  match v with
  | PStr s => ret (Z.of_nat (String.length s))
  | PNone => raise TypeError
  end.

(** The UNIQUE index [sources_uniq_idx ON sources (text, context, lang)]:
    a row conflicts only when every column compares equal, and a NULL
    context never does. *)
Definition source_conflict (text : string) (ctx : pyval) (lang : string)
  (r : source_row) : bool :=
  String.eqb (s_text r) text && sql_eq (s_context r) ctx
  && String.eqb (s_lang r) lang.

(** [INSERT INTO sources (text, context, lang, length) VALUES(?, ?, ?, ?)],
    returning [cursor.lastrowid]. *)
Definition exec_insert_source (text ctx lang : pyval) (len : Z) : M Z :=
  fun c =>
    let db := working c in
    match text, lang with
    | PStr t, PStr l =>
        if existsb (source_conflict t ctx l) (sources db)
        then (c, inl IntegrityError)
        else
          let sid := sources_seq db + 1 in
          (mk_conn (committed c)
             (mk_tables (sources db ++ [mk_source sid t ctx l len])
                (targets db) sid (targets_seq db)),
           inr sid)
    | _, _ => (c, inl IntegrityError)
    end.

(** [SELECT sid FROM sources WHERE text=? AND context=? and lang=?] then
    [fetchone()]: the first matching row, if any. *)
Definition exec_select_sid (text ctx lang : pyval) : M (option Z) :=
  fun c =>
    (c, inr (option_map s_sid
               (find (fun r => sql_eq (PStr (s_text r)) text
                               && sql_eq (s_context r) ctx
                               && sql_eq (PStr (s_lang r)) lang)
                  (sources (working c))))).

(** The UNIQUE index [targets_uniq_idx ON targets (sid, text, lang)]. *)
Definition target_conflict (sid : Z) (text lang : string) (r : target_row) : bool :=
  Z.eqb (t_sid r) sid && String.eqb (t_text r) text && String.eqb (t_lang r) lang.

(** [INSERT INTO targets (sid, text, lang, time) VALUES (?, ?, ?, ?)] *)
Definition exec_insert_target (sid : Z) (text lang : pyval) (time : Z) : M unit :=
  fun c =>
    let db := working c in
    match text, lang with
    | PStr t, PStr l =>
        if existsb (target_conflict sid t l) (targets db)
        then (c, inl IntegrityError)
        else
          let tid := targets_seq db + 1 in
          (mk_conn (committed c)
             (mk_tables (sources db) (targets db ++ [mk_target tid sid t l time])
                (sources_seq db) tid),
           inr tt)
    | _, _ => (c, inl IntegrityError)
    end.

(** Lines 218-231 of [add_dict]: insert the source, or on IntegrityError
    look up the sid of the existing row ([(sid,) = None] raises TypeError). *)
Definition add_source_stmt (u : pydict) (source_lang : pyval) : M Z :=
  try_except
    (src <- getitem u "source";;
     ctx <- getitem u "context";;
     src' <- getitem u "source";;
     n <- py_len src';;
     exec_insert_source src ctx source_lang n)
    is_integrity_error
    (fun _ =>
       src <- getitem u "source";;
       ctx <- getitem u "context";;
       row <- exec_select_sid src ctx source_lang;;
       match row with
       | Some sid => ret sid
       | None => raise TypeError
       end).

(** Lines 233-239 of [add_dict]: insert the target under
    [contextlib.suppress(dbapi2.IntegrityError)]; [now] is
    [int(time.time())]. *)
Definition add_target_stmt (sid : Z) (u : pydict) (target_lang : pyval) (now : Z)
  : M unit :=
  try_except
    (tgt <- getitem u "target";;
     exec_insert_target sid tgt target_lang now)
    is_integrity_error
    (fun _ => ret tt).

(** [TMDB.add_dict] *)
Definition add_dict (u : pydict) (source_lang target_lang : pyval)
  (commit : bool) (now : Z) : M unit :=
  let source_lang := normalize_code source_lang in
  let target_lang := normalize_code target_lang in
  try_except
    (sid <- add_source_stmt u source_lang;;
     add_target_stmt sid u target_lang now;;
     if commit then db_commit else ret tt)
    (fun _ => true)
    (fun e => (if commit then db_rollback else ret tt);; raise e).

(** ** Translation units and the batch inserts *)

(** The translation-unit abstraction consumed by [add_unit] and
    [add_store]: its attributes and the answers of its methods. *)
Record tunit : Type := mk_unit {
  u_source : pyval;
  u_target : pyval;
  u_context : pyval;                 (* getcontext() *)
  u_sourcelanguage : pyval;          (* getsourcelanguage() *)
  u_targetlanguage : pyval;          (* gettargetlanguage() *)
  u_istranslatable : bool;           (* istranslatable() *)
  u_istranslated : bool              (* istranslated() *)
}.

(** The languages [add_unit] settles on (lines 196-199): the unit's own
    language when truthy, the caller's argument otherwise. *)
Definition resolve_lang (unit_lang arg : pyval) : pyval :=
  if truthy unit_lang then unit_lang else arg.

Definition unitdict (u : tunit) : pydict :=
  [("source", u_source u); ("target", u_target u); ("context", u_context u)].

(** [TMDB.add_unit] *)
Definition add_unit (u : tunit) (source_lang target_lang : pyval)
  (commit : bool) (now : Z) : M unit :=
  let source_lang := resolve_lang (u_sourcelanguage u) source_lang in
  let target_lang := resolve_lang (u_targetlanguage u) target_lang in
  if negb (truthy source_lang) then raise (LanguageError "undefined source language")
  else if negb (truthy target_lang) then raise (LanguageError "undefined target language")
  else add_dict (unitdict u) source_lang target_lang commit now.

Record tstore : Type := mk_store { units : list tunit }.

(** The loop of [add_store] (lines 250-254). *)
Fixpoint add_store_loop (us : list tunit) (source_lang target_lang : pyval)
  (now : Z) (count : Z) : M Z :=
  match us with
  | [] => ret count
  | u :: us' =>
      if u_istranslatable u && u_istranslated u then
        add_unit u source_lang target_lang false now;;
        add_store_loop us' source_lang target_lang now (count + 1)
      else add_store_loop us' source_lang target_lang now count
  end.

(** [TMDB.add_store]; [now] is the clock read by every [add_dict]. *)
Definition add_store (store : tstore) (source_lang target_lang : pyval)
  (commit : bool) (now : Z) : M Z :=
  count <- add_store_loop (units store) source_lang target_lang now 0;;
  (if commit then db_commit else ret tt);;
  ret count.

Fixpoint add_list_loop (us : list pydict) (source_lang target_lang : pyval)
  (now : Z) (count : Z) : M Z :=
  match us with
  | [] => ret count
  | u :: us' =>
      add_dict u source_lang target_lang false now;;
      add_list_loop us' source_lang target_lang now (count + 1)
  end.

(** [TMDB.add_list] *)
Definition add_list (us : list pydict) (source_lang target_lang : pyval)
  (commit : bool) (now : Z) : M Z :=
  count <- add_list_loop us source_lang target_lang now 0;;
  (if commit then db_commit else ret tt);;
  ret count.

(** ** Length bounds *)

(** Python's [max(a, b)]: [b] only when [b > a]. *)
Definition py_max (a b : Q) : Q := if Qle_bool b a then a else b.
(** Python's [min(a, b)]: [b] only when [b < a]. *)
Definition py_min (a b : Q) : Q := if Qle_bool a b then a else b.

(** [math.ceil(max(length * (min_similarity / 100.0), 2))], in exact
    rational arithmetic. *)
Definition min_levenshtein_length (length min_similarity : Z) : Z :=
  Qceiling (py_max (inject_Z length * (inject_Z min_similarity / inject_Z 100))
              (inject_Z 2)).

(** [math.floor(min(length / (min_similarity / 100.0), max_length))], in
    exact rational arithmetic, for a non-zero [min_similarity] (at zero
    Python raises ZeroDivisionError: [max_levenshtein_length_py]). *)
Definition max_levenshtein_length (length min_similarity max_length : Z) : Z :=
  Qfloor (py_min (inject_Z length / (inject_Z min_similarity / inject_Z 100))
            (inject_Z max_length)).

(** The call of [max_levenshtein_length] as Python runs it: the division
    by [min_similarity / 100.0] raises ZeroDivisionError for a zero
    [min_similarity]; otherwise the value above. *)
Definition max_levenshtein_length_py (length min_similarity max_length : Z) : M Z :=
  if Z.eqb min_similarity 0 then raise ZeroDivisionError
  else ret (max_levenshtein_length length min_similarity max_length).

(** ** The query of [translate_unit] *)

(** The configuration of a [TMDB] instance.  [comparer] is
    [self.comparer.similarity] and [fts_query] is the FTS3 engine reading
    the right operand of [fulltext MATCH ?]: [None] when it rejects the
    expression as malformed (the statement then raises OperationalError),
    otherwise the test it applies to an indexed source text. *)
Record TMDB : Type := mk_tmdb {
  max_candidates : Z;
  min_similarity : Z;
  max_length : Z;
  fulltext : bool;
  comparer : string -> string -> Z -> Q;
  fts_query : string -> option (string -> bool)
}.

Inductive langarg : Type :=
| LOne (v : pyval)               (* a single language *)
| LList (vs : list pyval).       (* a Python list of languages *)

Fixpoint strs_of (vs : list pyval) : option (list string) :=
  match vs with
  | [] => Some []
  | PStr s :: vs' => option_map (cons s) (strs_of vs')
  | PNone :: _ => None
  end.

Fixpoint join_strings (sep : string) (l : list string) : string :=
  match l with
  | [] => ""
  | [s] => s
  | s :: l' => s ++ sep ++ join_strings sep l'
  end.

(** [sep.join(vs)]: TypeError on a non-string item. *)
Definition py_join (sep : string) (vs : list pyval) : M string :=
  match strs_of vs with
  | Some l => ret (join_strings sep l)
  | None => raise TypeError
  end.

(** Lines 274-283 of [translate_unit]. *)
Definition normalize_langs (langs : langarg) : M pyval :=
  match langs with
  | LList vs => s <- py_join "," (map normalize_code vs);; ret (PStr s)
  | LOne v => ret (normalize_code v)
  end.

(** The characters [\w] matches under [re.UNICODE] among U+0000-U+00FF:
    [_] and the characters [str.isalnum] accepts: ASCII letters and digits,
    U+00AA, U+00B2, U+00B3, U+00B5, U+00B9, U+00BA, U+00BC-U+00BE and the
    letters U+00C0-U+00FF except U+00D7 and U+00F7. *)
Definition is_word_char (a : ascii) : bool :=
  let n := nat_of_ascii a in
  ((48 <=? n) && (n <=? 57) || (65 <=? n) && (n <=? 90) || (n =? 95)
   || (97 <=? n) && (n <=? 122) || (n =? 170) || (178 <=? n) && (n <=? 179)
   || (n =? 181) || (185 <=? n) && (n <=? 186) || (188 <=? n) && (n <=? 190)
   || (192 <=? n) && (n <=? 214) || (216 <=? n) && (n <=? 246) || (248 <=? n))%nat.

Definition strip_nonword (s : string) : string :=
  map_string (fun a => if is_word_char a then a else " "%char) s.

(** [str.split()] once only spaces separate words. *)
Fixpoint split_words (l : list ascii) (cur : list ascii) : list (list ascii) :=
  match l with
  | [] => match cur with [] => [] | _ => [rev cur] end
  | a :: l' =>
      if Ascii.eqb a " "%char then
        match cur with
        | [] => split_words l' []
        | _ => rev cur :: split_words l' []
        end
      else split_words l' (a :: cur)
  end.

(** Lines 292-293: the words of more than two characters. *)
Definition unit_words (unit_source : string) : list string :=
  filter (fun w => (2 <? String.length w)%nat)
    (map string_of_list_ascii
       (split_words (list_ascii_of_string (strip_nonword unit_source)) [])).

(** A row [(s.text, t.text, s.context, s.lang, t.lang)]. *)
Record row : Type := mk_row {
  r_source : string;
  r_target : string;
  r_context : pyval;
  r_slang : string;
  r_tlang : string
}.

(** [sources s JOIN targets t ON s.sid = t.sid WHERE <keep s> AND t.lang IN (?)],
    one parameter in the [IN] list, rows enumerated source by source. *)
Definition join_rows (db : tables) (keep : source_row -> bool) (tl : pyval)
  : list row :=
  flat_map
    (fun s =>
       if keep s then
         map (fun t => mk_row (s_text s) (t_text t) (s_context s) (s_lang s) (t_lang t))
           (filter (fun t => Z.eqb (t_sid t) (s_sid s) && sql_eq (PStr (t_lang t)) tl)
              (targets db))
       else [])
    (sources db).

Definition in_length (s : source_row) (minlen maxlen : Z) : bool :=
  Z.leb minlen (s_length s) && Z.leb (s_length s) maxlen.

(** Lines 285-309: the rows the cursor yields once the statement has
    executed (when FTS3 rejects the search string the statement raises
    instead, see [query_fails]; no row is read then). *)
Definition query_rows (tm : TMDB) (db : tables) (unit_source : string)
  (sl tl : pyval) : list row :=
  let len := Z.of_nat (String.length unit_source) in
  let minlen := min_levenshtein_length len (min_similarity tm) in
  let maxlen := max_levenshtein_length len (min_similarity tm) (max_length tm) in
  let words := unit_words unit_source in
  if fulltext tm && (3 <? List.length words)%nat then
    match fts_query tm (join_strings " OR " words) with
    | Some matches =>
        join_rows db
          (fun s => sql_eq (PStr (s_lang s)) sl && in_length s minlen maxlen
                    && matches (s_text s)) tl
    | None => []
    end
  else
    join_rows db (fun s => sql_eq (PStr (s_lang s)) sl && in_length s minlen maxlen) tl.

(** ** Ranking *)

Record match_result : Type := mk_match {
  m_source : string;
  m_target : string;
  m_context : pyval;
  m_quality : Q
}.

(** Lines 311-322: score each row, keep those reaching [min_similarity]. *)
Fixpoint score_rows (tm : TMDB) (unit_source : string) (rows : list row)
  : list match_result :=
  match rows with
  | [] => []
  | r :: rows' =>
      let quality := comparer tm unit_source (r_source r) (min_similarity tm) in
      if Qle_bool (inject_Z (min_similarity tm)) quality then
        mk_match (r_source r) (r_target r) (r_context r) quality
          :: score_rows tm unit_source rows'
      else score_rows tm unit_source rows'
  end.

(** Insert before the first element of no greater quality. *)
Fixpoint insert_by_quality (m : match_result) (l : list match_result)
  : list match_result :=
  match l with
  | [] => [m]
  | h :: t =>
      if Qle_bool (m_quality h) (m_quality m) then m :: h :: t
      else h :: insert_by_quality m t
  end.

(** [results.sort(key=operator.itemgetter("quality"), reverse=True)]:
    Python's sort is stable, also with [reverse=True]. *)
Fixpoint sort_by_quality_desc (l : list match_result) : list match_result :=
  match l with
  | [] => []
  | m :: l' => insert_by_quality m (sort_by_quality_desc l')
  end.

(** [l[:n]], where a negative [n] counts from the end. *)
Definition py_slice_upto {A} (l : list A) (n : Z) : list A :=
  if Z.leb 0 n then firstn (Z.to_nat n) l
  else firstn (Z.to_nat (Z.of_nat (List.length l) + n)) l.

Definition rank (tm : TMDB) (unit_source : string) (rows : list row)
  : list match_result :=
  py_slice_upto (sort_by_quality_desc (score_rows tm unit_source rows))
    (max_candidates tm).

(** Whether [cursor.execute] raises OperationalError: the fulltext query
    runs and FTS3 rejects its search string [" OR ".join(unit_words)]. *)
Definition query_fails (tm : TMDB) (unit_source : string) : bool :=
  let words := unit_words unit_source in
  fulltext tm && (3 <? List.length words)%nat &&
  match fts_query tm (join_strings " OR " words) with
  | None => true
  | Some _ => false
  end.

(** Lines 297-310: execute the query and read the cursor. *)
Definition select_rows (tm : TMDB) (unit_source : string) (sl tl : pyval)
  : M (list row) :=
  fun c => if query_fails tm unit_source then (c, inl OperationalError)
           else (c, inr (query_rows tm (working c) unit_source sl tl)).

(** [TMDB.translate_unit] *)
Definition translate_unit (tm : TMDB) (unit_source : string)
  (source_langs target_langs : langarg) : M (list match_result) :=
  sl <- normalize_langs source_langs;;
  tl <- normalize_langs target_langs;;
  (* lines 285-288; [query_rows] binds the same bounds *)
  _ <- max_levenshtein_length_py (Z.of_nat (String.length unit_source))
         (min_similarity tm) (max_length tm);;
  rows <- select_rows tm unit_source sl tl;;
  ret (rank tm unit_source rows).

(** ** A comparer for concrete runs *)

Fixpoint lev_step (a : ascii) (bs : list ascii) (prev : list nat) (left : nat)
  : list nat :=
  match bs, prev with
  | b :: bs', diag :: ((up :: _) as prev') =>
      let v := Nat.min (Nat.min (up + 1) (left + 1))
                 (diag + if Ascii.eqb a b then 0 else 1) in
      v :: lev_step a bs' prev' v
  | _, _ => []
  end.

Fixpoint lev_rows (as_ : list ascii) (bs : list ascii) (prev : list nat) (i : nat)
  : list nat :=
  match as_ with
  | [] => prev
  | a :: as' => lev_rows as' bs (S i :: lev_step a bs prev (S i)) (S i)
  end.

Definition levenshtein (a b : string) : nat :=
  let bs := list_ascii_of_string b in
  last (lev_rows (list_ascii_of_string a) bs (seq 0 (S (List.length bs))) 0) 0%nat.

(** Modelled from the spec: [LevenshteinComparer.similarity] of
    translate.search.lshtein, not part of the sources given here.  The spec
    asks for a normalised edit-distance ratio in 0-100, 100 when both
    strings are empty and 0 when exactly one is. *)
Definition spec_similarity (a b : string) (min_similarity : Z) : Q :=
  let la := String.length a in
  let lb := String.length b in
  match la, lb with
  | O, O => inject_Z 100
  | O, _ | _, O => 0%Q
  | _, _ =>
      (inject_Z 100 * (1 - inject_Z (Z.of_nat (levenshtein a b))
                           / inject_Z (Z.of_nat (Nat.max la lb))))%Q
  end.

(** A store with the configuration defaults of [TMDB.__init__] and no
    fulltext index. *)
Definition default_tmdb : TMDB :=
  mk_tmdb 3 75 1000 false spec_similarity (fun _ => Some (fun _ => false)).

Definition hello_dict (ctx : pyval) : pydict :=
  [("source", PStr "Hello world"); ("target", PStr "Bonjour monde");
   ("context", ctx)].

Example add_dict_twice_ctx :
  let c1 := fst (add_dict (hello_dict (PStr "")) (PStr "en") (PStr "fr") true 10 empty_conn) in
  let c2 := fst (add_dict (hello_dict (PStr "")) (PStr "EN") (PStr "fr") true 20 c1) in
  List.length (sources (committed c2)) = 1%nat /\ List.length (targets (committed c2)) = 1%nat.
Proof. vm_compute. split; reflexivity. Qed.

Example levenshtein_kitten : levenshtein "kitten" "sitting" = 3%nat.
Proof. reflexivity. Qed.

Example translate_hello :
  let c := fst (add_dict (hello_dict (PStr "")) (PStr "en") (PStr "fr") true 10 empty_conn) in
  match snd (translate_unit default_tmdb "Hello world" (LOne (PStr "en")) (LOne (PStr "fr")) c) with
  | inr [m] => m_target m = "Bonjour monde" /\ Qeq_bool (m_quality m) (inject_Z 100) = true
  | _ => False
  end.
Proof. vm_compute. split; reflexivity. Qed.

(** ** Concrete units and stores *)

Definition unit_en_fr : tunit :=
  mk_unit (PStr "Hello world") (PStr "Bonjour monde") (PStr "") (PStr "en") (PStr "fr")
    true true.

Definition unit_no_lang : tunit :=
  mk_unit (PStr "Goodbye") (PStr "Au revoir") (PStr "") PNone PNone true true.

Definition dict_no_target : pydict :=
  [("source", PStr "Goodbye"); ("context", PStr "")].

Definition is_prefix {A} (l1 l2 : list A) : Prop := exists rest, l2 = (l1 ++ rest)%list.

Definition quality_is (q : Q) (m : match_result) : bool := Qeq_bool (m_quality m) q.

Definition translatable_and_translated (u : tunit) : bool :=
  u_istranslatable u && u_istranslated u.

(** [add_unit] over a list of units, without commit. *)
Fixpoint add_units (us : list tunit) (source_lang target_lang : pyval) (now : Z)
  : M unit :=
  match us with
  | [] => ret tt
  | u :: us' =>
      add_unit u source_lang target_lang false now;;
      add_units us' source_lang target_lang now
  end.

(** A computation that leaves the committed tables alone. *)
Definition keeps_committed {A} (m : M A) : Prop :=
  forall c, committed (fst (m c)) = committed c.

(** What the inserts keep true of a table state: the cached [length] of a
    source is the length of its text, and every target points at a stored
    source (the FOREIGN KEY is declared but SQLite does not enforce it by
    default). *)
Definition tables_ok (db : tables) : Prop :=
  Forall (fun r => s_length r = Z.of_nat (String.length (s_text r))) (sources db) /\
  (forall t, In t (targets db) -> exists s, In s (sources db) /\ s_sid s = t_sid t).

Definition conn_ok (c : conn) : Prop := tables_ok (committed c) /\ tables_ok (working c).

Definition preserves_ok {A} (m : M A) : Prop :=
  forall c, conn_ok c -> conn_ok (fst (m c)).

(** Whether a language argument is a list holding [None]. *)
Definition has_none (langs : langarg) : Prop :=
  match langs with
  | LOne _ => False
  | LList vs => In PNone vs
  end.

(** A store where ranking has work to do: looked up with "Hello world",
    the first stored pair scores below the three that follow, which tie at
    100, and only two results are kept. *)
Definition ranked_tmdb : TMDB :=
  mk_tmdb 2 50 1000 false spec_similarity (fun _ => Some (fun _ => false)).

Definition en_fr_dict (source target : string) : pydict :=
  [("source", PStr source); ("target", PStr target); ("context", PStr "")].

Definition ranked_conn : conn :=
  fst (add_list [en_fr_dict "Hello worlds" "Bonjour les mondes";
                 en_fr_dict "Hello world" "Bonjour monde";
                 en_fr_dict "Hello world" "Salut monde";
                 en_fr_dict "Hello world" "Allo monde"]
         (PStr "en") (PStr "fr") true 10 empty_conn).

(** ** The per-thread connection cache (lines 47-80) *)

(** Threads are named by numbers; a handle names the [(connection, cursor)]
    pair made by one [dbapi2.connect]. *)
Definition thread : Type := nat.
Definition handle : Type := nat.

(** [TMDB._tm_dbs]: for each database file, the cache of its instances,
    from thread to handle; [next_handle] is the next fresh connection. *)
Record registry : Type := mk_registry {
  tm_dbs : list (string * list (thread * handle));
  next_handle : handle
}.

Fixpoint files_get (l : list (string * list (thread * handle))) (f : string)
  : option (list (thread * handle)) :=
  match l with
  | [] => None
  | (f', v) :: l' => if String.eqb f f' then Some v else files_get l' f
  end.

Fixpoint files_set (l : list (string * list (thread * handle))) (f : string)
  (v : list (thread * handle)) : list (string * list (thread * handle)) :=
  match l with
  | [] => [(f, v)]
  | (f', v') :: l' => if String.eqb f f' then (f', v) :: l' else (f', v') :: files_set l' f v
  end.

Fixpoint threads_get (l : list (thread * handle)) (t : thread) : option handle :=
  match l with
  | [] => None
  | (t', h) :: l' => if Nat.eqb t t' then Some h else threads_get l' t
  end.

Fixpoint threads_set (l : list (thread * handle)) (t : thread) (h : handle)
  : list (thread * handle) :=
  match l with
  | [] => [(t, h)]
  | (t', h') :: l' => if Nat.eqb t t' then (t', h) :: l' else (t', h') :: threads_set l' t h
  end.

(** Lines 58-60 of [TMDB.__init__]: register the file once. *)
Definition register_db_file (reg : registry) (db_file : string) : registry :=
  match files_get (tm_dbs reg) db_file with
  | Some _ => reg
  | None => mk_registry (files_set (tm_dbs reg) db_file []) (next_handle reg)
  end.

(** [TMDB._get_connection(index)] for the instance of [db_file], called
    from thread [t]: the component [index] (0 the connection, 1 the cursor)
    of the thread's pair, made on first use.  [None] stands for an
    instance whose file was never registered, which [__init__] rules out. *)
Definition get_connection (reg : registry) (db_file : string) (t : thread) (index : nat)
  : registry * option (handle * nat) :=
  match files_get (tm_dbs reg) db_file with
  | None => (reg, None)
  | Some cache =>
      match threads_get cache t with
      | Some h => (reg, Some (h, index))
      | None =>
          let h := next_handle reg in
          (mk_registry (files_set (tm_dbs reg) db_file (threads_set cache t h)) (S h),
           Some (h, index))
      end
  end.

(** Every cached handle is older than [next_handle] and names the pair of
    one file and one thread. *)
Definition registry_ok (reg : registry) : Prop :=
  (forall f cache t h, files_get (tm_dbs reg) f = Some cache -> threads_get cache t = Some h ->
     (h < next_handle reg)%nat) /\
  (forall f1 f2 c1 c2 t1 t2 h,
     files_get (tm_dbs reg) f1 = Some c1 -> threads_get c1 t1 = Some h ->
     files_get (tm_dbs reg) f2 = Some c2 -> threads_get c2 t2 = Some h ->
     f1 = f2 /\ t1 = t2).

(** The rows of the query: a stored source joined with one of its
    targets, both in the requested languages, the source length within the
    window. *)
Definition stored_match (db : tables) (unit_source : string) (tm : TMDB) (sl tl : pyval)
  (s : source_row) (t : target_row) : Prop :=
  let len := Z.of_nat (String.length unit_source) in
  In s (sources db) /\ In t (targets db) /\ t_sid t = s_sid s /\
  sql_eq (PStr (s_lang s)) sl = true /\ sql_eq (PStr (t_lang t)) tl = true /\
  min_levenshtein_length len (min_similarity tm) <= s_length s /\
  s_length s <= max_levenshtein_length len (min_similarity tm) (max_length tm).

(** * Properties *)

(** C1 (code_bug).  A list of source languages is joined into one string
    and bound to the single placeholder of [s.lang IN (?)]: with
    [source_langs = ["en", "de"]] the query compares [s.lang] with the
    string ["en,de"], so a stored en -> fr pair is not returned, while the
    same query with ["en"] alone returns it. *)
Theorem translate_unit_lang_list_bound_as_one_value :
  let c := fst (add_dict (hello_dict (PStr "")) (PStr "en") (PStr "fr") true 10 empty_conn) in
  snd (normalize_langs (LList [PStr "en"; PStr "de"]) c) = inr (PStr "en,de") /\
  snd (translate_unit default_tmdb "Hello world"
         (LList [PStr "en"; PStr "de"]) (LOne (PStr "fr")) c) = inr [] /\
  List.length (sources (working c)) = 1%nat /\
  List.length (query_rows default_tmdb (working c) "Hello world" (PStr "en") (PStr "fr"))
    = 1%nat.
Proof. vm_compute. repeat split; reflexivity. Qed.

(** C2 (code_bug).  Neither [add_store] nor [add_list] rolls back when a
    unit of the batch raises: the rows of the earlier units stay in the
    open transaction, and the next commit on the connection (here an empty
    [add_list] with [commit=True]) makes them durable. *)
Theorem batch_insert_not_rolled_back_on_error :
  (let (c1, r1) := add_store (mk_store [unit_en_fr; unit_no_lang]) PNone PNone true 10
                     empty_conn in
   r1 = inl (LanguageError "undefined source language") /\
   sources (committed c1) = [] /\
   List.length (sources (working c1)) = 1%nat /\
   let (c2, r2) := add_list [] (PStr "en") (PStr "fr") true 20 c1 in
   r2 = inr 0 /\ List.length (sources (committed c2)) = 1%nat
   /\ List.length (targets (committed c2)) = 1%nat) /\
  (let (c1, r1) := add_list [hello_dict (PStr ""); dict_no_target] (PStr "en") (PStr "fr")
                     true 10 empty_conn in
   r1 = inl (KeyError "target") /\
   sources (committed c1) = [] /\
   List.length (sources (working c1)) = 2%nat /\
   let (c2, r2) := add_list [] (PStr "en") (PStr "fr") true 20 c1 in
   r2 = inr 0 /\ List.length (sources (committed c2)) = 2%nat
   /\ List.length (targets (committed c2)) = 1%nat).
Proof. vm_compute. repeat split; reflexivity. Qed.

(** C4 (counterexample).  For a source text of length 0 the lower bound
    is 2 and the upper bound 0. *)
Lemma levenshtein_bounds_crossed_at_length_0 :
  ~ (min_levenshtein_length 0 75 <= max_levenshtein_length 0 75 1000).
Proof. vm_compute. intros H. apply H. reflexivity. Qed.

(** C5 (code_bug).  With a NULL context the UNIQUE index on
    [(text, context, lang)] never fires, so inserting the same source
    twice creates a second row with a new sid. *)
Theorem add_dict_null_context_duplicates_source :
  let d := hello_dict PNone in
  let (c1, sid1) := add_source_stmt d (PStr "en") empty_conn in
  let (_, sid2) := add_source_stmt d (PStr "en") c1 in
  let c2 := fst (add_dict d (PStr "en") (PStr "fr") true 20
                   (fst (add_dict d (PStr "en") (PStr "fr") true 10 empty_conn))) in
  sid1 = inr 1 /\ sid2 = inr 2 /\
  map (fun r => (s_sid r, s_text r, s_context r, s_lang r)) (sources (committed c2))
  = [(1, "Hello world", PNone, "en"); (2, "Hello world", PNone, "en")].
Proof. vm_compute. repeat split; reflexivity. Qed.

(** ** Length bounds *)

Lemma scaled_length_le (length s : Z) :
  0 <= length -> 0 < s <= 100 ->
  (inject_Z length * (inject_Z s / inject_Z 100) <= inject_Z length)%Q.
Proof.
  intros Hl Hs. destruct s as [|p|p]; try lia.
  unfold Qle, Qmult, Qdiv, Qinv, inject_Z; simpl.
  rewrite ?Pos2Z.inj_mul. nia.
Qed.

Lemma length_le_stretched (length s : Z) :
  0 <= length -> 0 < s <= 100 ->
  (inject_Z length <= inject_Z length / (inject_Z s / inject_Z 100))%Q.
Proof.
  intros Hl Hs. destruct s as [|p|p]; try lia.
  unfold Qle, Qmult, Qdiv, Qinv, inject_Z; simpl.
  rewrite ?Pos2Z.inj_mul. nia.
Qed.

Lemma min_levenshtein_length_le (length s : Z) :
  2 <= length -> 0 < s <= 100 -> min_levenshtein_length length s <= length.
Proof.
  intros Hl Hs. unfold min_levenshtein_length.
  rewrite <- (Qceiling_Z length) at 2. apply Qceiling_resp_le.
  unfold py_max. destruct (Qle_bool _ _).
  - apply scaled_length_le; lia.
  - rewrite <- Zle_Qle. exact Hl.
Qed.

Lemma max_levenshtein_length_ge (length s cap : Z) :
  0 <= length <= cap -> 0 < s <= 100 -> length <= max_levenshtein_length length s cap.
Proof.
  intros Hl Hs. unfold max_levenshtein_length.
  rewrite <- (Qfloor_Z length) at 1. apply Qfloor_resp_le.
  unfold py_min. destruct (Qle_bool _ _).
  - apply length_le_stretched; lia.
  - rewrite <- Zle_Qle. lia.
Qed.

(** C4 (amended).  For a source length between 2 and the length cap and a
    similarity threshold in (0, 100], the lower length bound of the query
    does not exceed the upper one (both enclose the source length). *)
Theorem levenshtein_bounds_ordered (length min_similarity max_length : Z) :
  2 <= length <= max_length -> 0 < min_similarity <= 100 ->
  min_levenshtein_length length min_similarity
  <= max_levenshtein_length length min_similarity max_length.
Proof.
  intros Hl Hs.
  pose proof (min_levenshtein_length_le length min_similarity ltac:(lia) Hs).
  pose proof (max_levenshtein_length_ge length min_similarity max_length ltac:(lia) Hs).
  lia.
Qed.

Lemma levenshtein_bounds_ordered_witness :
  (2 <= 11 <= 1000 /\ 0 < 75 <= 100) /\
  min_levenshtein_length 11 75 <= max_levenshtein_length 11 75 1000.
Proof. split; [lia | apply (levenshtein_bounds_ordered 11 75 1000); lia]. Defined.

(** ** Target inserts *)

Lemma existsb_filter_nil {A} (f : A -> bool) (l : list A) :
  filter f l = [] -> existsb f l = false.
Proof.
  induction l as [|a l IH]; simpl; auto.
  destruct (f a); [discriminate | auto].
Qed.

Lemma target_conflict_refl (tid sid : Z) (text lang : string) (time : Z) :
  target_conflict sid text lang (mk_target tid sid text lang time) = true.
Proof.
  unfold target_conflict; simpl.
  rewrite Z.eqb_refl, !String.eqb_refl. reflexivity.
Qed.

(** C8.  Inserting the target [(sid, text, lang)] twice, when it was not
    stored yet, leaves exactly one row for the triple, carrying the time
    of the first insert; the second insert is silently ignored. *)
Theorem add_target_stmt_twice_keeps_first_time (c : conn) (sid : Z) (u : pydict)
  (text lang : string) (t1 t2 : Z) :
  dict_get u "target" = Some (PStr text) ->
  filter (target_conflict sid text lang) (targets (working c)) = [] ->
  let (c1, r1) := add_target_stmt sid u (PStr lang) t1 c in
  let (c2, r2) := add_target_stmt sid u (PStr lang) t2 c1 in
  r1 = inr tt /\ r2 = inr tt /\
  exists tid, filter (target_conflict sid text lang) (targets (working c2))
              = [mk_target tid sid text lang t1].
Proof.
  intros Hget Hnone.
  unfold add_target_stmt, try_except, getitem, bind, exec_insert_target, ret.
  rewrite Hget. simpl.
  rewrite (existsb_filter_nil _ _ Hnone). simpl.
  set (row := mk_target (targets_seq (working c) + 1) sid text lang t1).
  assert (Hx : existsb (target_conflict sid text lang) (targets (working c) ++ [row])
               = true).
  { apply existsb_exists. exists row. split.
    - apply in_or_app. right. left. reflexivity.
    - apply target_conflict_refl. }
  rewrite Hx. simpl.
  repeat split.
  exists (targets_seq (working c) + 1).
  rewrite filter_app, Hnone. cbn [filter app].
  unfold row. rewrite target_conflict_refl. reflexivity.
Qed.

Lemma add_target_stmt_twice_keeps_first_time_witness :
  (dict_get (hello_dict (PStr "")) "target" = Some (PStr "Bonjour monde") /\
   filter (target_conflict 1 "Bonjour monde" "fr") (targets (working empty_conn)) = []) /\
  (let (c1, r1) := add_target_stmt 1 (hello_dict (PStr "")) (PStr "fr") 10 empty_conn in
   let (c2, r2) := add_target_stmt 1 (hello_dict (PStr "")) (PStr "fr") 20 c1 in
   r1 = inr tt /\ r2 = inr tt /\
   exists tid, filter (target_conflict 1 "Bonjour monde" "fr") (targets (working c2))
               = [mk_target tid 1 "Bonjour monde" "fr" 10]).
Proof.
  split; [split; reflexivity |].
  apply (add_target_stmt_twice_keeps_first_time empty_conn 1 (hello_dict (PStr ""))
           "Bonjour monde" "fr" 10 20); reflexivity.
Defined.

(** ** Units without a language *)

(** C9.  When no source language or no target language can be resolved
    from the unit and the caller's arguments, [add_unit] raises
    LanguageError and the connection (committed and pending rows) is left
    as it was. *)
Theorem add_unit_unresolved_language (u : tunit) (source_lang target_lang : pyval)
  (commit : bool) (now : Z) (c : conn) :
  truthy (resolve_lang (u_sourcelanguage u) source_lang) = false
  \/ truthy (resolve_lang (u_targetlanguage u) target_lang) = false ->
  exists msg, add_unit u source_lang target_lang commit now c = (c, inl (LanguageError msg)).
Proof.
  intros H. unfold add_unit.
  destruct (truthy (resolve_lang (u_sourcelanguage u) source_lang)) eqn:Hs; simpl.
  - destruct H as [H | H]; [discriminate |].
    rewrite H. simpl. eexists. reflexivity.
  - eexists. reflexivity.
Qed.

Lemma add_unit_unresolved_language_witness :
  (truthy (resolve_lang (u_sourcelanguage unit_no_lang) PNone) = false
   \/ truthy (resolve_lang (u_targetlanguage unit_no_lang) PNone) = false) /\
  exists msg, add_unit unit_no_lang PNone PNone true 10 empty_conn
              = (empty_conn, inl (LanguageError msg)).
Proof.
  split; [left; reflexivity |].
  apply (add_unit_unresolved_language unit_no_lang PNone PNone true 10 empty_conn).
  left; reflexivity.
Defined.

(** ** Ranking: filtering, sorting, truncation *)

Definition quality_ge (a b : match_result) : Prop := (m_quality b <= m_quality a)%Q.

Lemma insert_by_quality_forall (P : match_result -> Prop) (m : match_result)
  (l : list match_result) :
  P m -> Forall P l -> Forall P (insert_by_quality m l).
Proof.
  intros Hm Hl. induction Hl as [|h t Hh Ht IH]; simpl.
  - constructor; auto.
  - destruct (Qle_bool (m_quality h) (m_quality m)); auto.
Qed.

Lemma sort_by_quality_desc_forall (P : match_result -> Prop) (l : list match_result) :
  Forall P l -> Forall P (sort_by_quality_desc l).
Proof.
  induction 1; simpl; [constructor |].
  apply insert_by_quality_forall; auto.
Qed.

Lemma firstn_forall {A} (P : A -> Prop) (n : nat) (l : list A) :
  Forall P l -> Forall P (firstn n l).
Proof.
  intros H. revert n. induction H as [|a l Ha Hl IH]; intros [|n]; simpl; auto.
Qed.

Lemma py_slice_upto_forall {A} (P : A -> Prop) (l : list A) (n : Z) :
  Forall P l -> Forall P (py_slice_upto l n).
Proof.
  intros H. unfold py_slice_upto. destruct (Z.leb 0 n); apply firstn_forall; auto.
Qed.

Lemma score_rows_above_threshold (tm : TMDB) (src : string) (rows : list row) :
  Forall (fun m => (inject_Z (min_similarity tm) <= m_quality m)%Q)
    (score_rows tm src rows).
Proof.
  induction rows as [|r rows IH]; simpl; [constructor |].
  destruct (Qle_bool _ _) eqn:E; auto.
  constructor; auto. simpl. apply Qle_bool_iff. exact E.
Qed.

Lemma rank_above_threshold (tm : TMDB) (src : string) (rows : list row) :
  Forall (fun m => (inject_Z (min_similarity tm) <= m_quality m)%Q) (rank tm src rows).
Proof.
  unfold rank. apply py_slice_upto_forall, sort_by_quality_desc_forall,
    score_rows_above_threshold.
Qed.

Lemma insert_by_quality_hdrel (x m : match_result) (l : list match_result) :
  HdRel quality_ge x l -> quality_ge x m -> HdRel quality_ge x (insert_by_quality m l).
Proof.
  intros Hl Hm. destruct l as [|h t]; simpl.
  - constructor. exact Hm.
  - destruct (Qle_bool _ _); constructor; auto.
    inversion Hl; auto.
Qed.

Lemma insert_by_quality_sorted (m : match_result) (l : list match_result) :
  Sorted quality_ge l -> Sorted quality_ge (insert_by_quality m l).
Proof.
  induction l as [|h t IH]; intros Hs; simpl.
  - repeat constructor.
  - destruct (Qle_bool (m_quality h) (m_quality m)) eqn:E.
    + constructor; [exact Hs |]. constructor.
      unfold quality_ge. apply Qle_bool_iff. exact E.
    + apply Sorted_inv in Hs as [Ht Hh].
      constructor; [apply IH; exact Ht |].
      apply insert_by_quality_hdrel; [exact Hh |].
      unfold quality_ge. apply Qlt_le_weak, Qnot_le_lt.
      intros Hle. apply Qle_bool_iff in Hle. congruence.
Qed.

Lemma sort_by_quality_desc_sorted (l : list match_result) :
  Sorted quality_ge (sort_by_quality_desc l).
Proof.
  induction l as [|m l IH]; simpl; [constructor |].
  apply insert_by_quality_sorted. exact IH.
Qed.

Lemma firstn_sorted {A} (R : A -> A -> Prop) (n : nat) (l : list A) :
  Sorted R l -> Sorted R (firstn n l).
Proof.
  revert n. induction l as [|a l IH]; intros [|n] Hs; simpl; auto.
  apply Sorted_inv in Hs as [Hl Ha]. constructor; [apply IH; exact Hl |].
  destruct l as [|b l]; destruct n; simpl; constructor.
  inversion Ha; auto.
Qed.

(** Sorting keeps the retrieval order among results of equal quality. *)
Lemma insert_by_quality_stable (q : Q) (m : match_result) (l : list match_result) :
  filter (quality_is q) (insert_by_quality m l) = filter (quality_is q) (m :: l).
Proof.
  induction l as [|h t IH]; simpl; [reflexivity |].
  destruct (Qle_bool (m_quality h) (m_quality m)) eqn:E; [reflexivity |].
  simpl. rewrite IH. simpl.
  destruct (quality_is q h) eqn:Eh; [| reflexivity].
  destruct (quality_is q m) eqn:Em; [| reflexivity].
  exfalso. unfold quality_is in Eh, Em.
  apply Qeq_bool_iff in Eh, Em.
  assert (Hle : (m_quality h <= m_quality m)%Q) by (rewrite Eh, Em; apply Qle_refl).
  apply Qle_bool_iff in Hle. congruence.
Qed.

Lemma sort_by_quality_desc_stable (q : Q) (l : list match_result) :
  filter (quality_is q) (sort_by_quality_desc l) = filter (quality_is q) l.
Proof.
  induction l as [|m l IH]; simpl; [reflexivity |].
  rewrite insert_by_quality_stable. simpl. rewrite IH. reflexivity.
Qed.

Lemma filter_firstn_prefix {A} (f : A -> bool) (n : nat) (l : list A) :
  is_prefix (filter f (firstn n l)) (filter f l).
Proof.
  revert n. induction l as [|a l IH]; intros [|n]; simpl.
  - exists []. reflexivity.
  - exists []. reflexivity.
  - exists (filter f (a :: l)). reflexivity.
  - destruct (IH n) as [rest Hr]. exists rest.
    destruct (f a); simpl; rewrite Hr; reflexivity.
Qed.

Lemma py_slice_upto_nonneg {A} (l : list A) (n : Z) :
  0 <= n -> py_slice_upto l n = firstn (Z.to_nat n) l.
Proof.
  intros H. unfold py_slice_upto. apply Z.leb_le in H. rewrite H. reflexivity.
Qed.

Lemma rank_length (tm : TMDB) (src : string) (rows : list row) :
  0 <= max_candidates tm ->
  Z.of_nat (List.length (rank tm src rows)) <= max_candidates tm.
Proof.
  intros H. unfold rank. rewrite py_slice_upto_nonneg by exact H.
  rewrite length_firstn. lia.
Qed.

(** ** The control flow of [translate_unit] *)

Lemma normalize_langs_state (l : langarg) (c : conn) :
  normalize_langs l c = (c, snd (normalize_langs l c)).
Proof.
  destruct l as [v | vs]; simpl; [reflexivity |].
  unfold py_join, bind, ret, raise. destruct (strs_of _); reflexivity.
Qed.

Lemma normalize_langs_errors (l : langarg) (c : conn) (e : exc) :
  snd (normalize_langs l c) = inl e -> e = TypeError.
Proof.
  destruct l as [v | vs]; simpl; [discriminate |].
  unfold py_join, bind, ret, raise. destruct (strs_of _); simpl; congruence.
Qed.

(** [translate_unit] reads the connection and never writes it; its
    outcome once the languages are normalised. *)
Lemma translate_unit_eq (tm : TMDB) (src : string) (sl tl : langarg) (c : conn) :
  translate_unit tm src sl tl c =
  (c, match snd (normalize_langs sl c) with
      | inl e => inl e
      | inr v =>
          match snd (normalize_langs tl c) with
          | inl e => inl e
          | inr w =>
              if Z.eqb (min_similarity tm) 0 then inl ZeroDivisionError
              else if query_fails tm src then inl OperationalError
              else inr (rank tm src (query_rows tm (working c) src v w))
          end
      end).
Proof.
  unfold translate_unit, bind at 1. rewrite (normalize_langs_state sl c).
  destruct (snd (normalize_langs sl c)) as [e | v]; [reflexivity |].
  unfold bind at 1. rewrite (normalize_langs_state tl c).
  destruct (snd (normalize_langs tl c)) as [e | w]; [reflexivity |].
  unfold max_levenshtein_length_py, select_rows, bind, ret, raise.
  destruct (Z.eqb (min_similarity tm) 0); [reflexivity |].
  destruct (query_fails tm src); reflexivity.
Qed.

Lemma translate_unit_cases (tm : TMDB) (src : string) (sl tl : langarg) (c : conn) :
  translate_unit tm src sl tl c = (c, snd (translate_unit tm src sl tl c)) /\
  ((exists e, snd (translate_unit tm src sl tl c) = inl e
              /\ (e = TypeError \/ e = ZeroDivisionError \/ e = OperationalError)) \/
   exists sl' tl', snd (normalize_langs sl c) = inr sl'
                   /\ snd (normalize_langs tl c) = inr tl'
                   /\ snd (translate_unit tm src sl tl c)
                      = inr (rank tm src (query_rows tm (working c) src sl' tl'))).
Proof.
  rewrite translate_unit_eq. simpl. split; [reflexivity |].
  destruct (snd (normalize_langs sl c)) as [e | v] eqn:E1.
  - left. exists e. split; [reflexivity |]. left. eapply normalize_langs_errors; eassumption.
  - destruct (snd (normalize_langs tl c)) as [e | w] eqn:E2.
    + left. exists e. split; [reflexivity |]. left. eapply normalize_langs_errors; eassumption.
    + destruct (Z.eqb (min_similarity tm) 0).
      * left. exists ZeroDivisionError. auto.
      * destruct (query_fails tm src).
        -- left. exists OperationalError. auto.
        -- right. exists v, w. auto.
Qed.

(** C3 (amended).  [translate_unit] does not check its language
    arguments: it never raises LanguageError and never changes the
    connection.  An empty language, given as [""] or as [[]], in either
    position and whatever the other argument, is normalised to [""] and
    bound in the candidate query like any other value: the call fails
    only as it fails for any language (TypeError from a [None] in the
    other list, ZeroDivisionError for a zero [min_similarity],
    OperationalError when FTS3 rejects the search string), and otherwise
    returns the ranked rows of the query run with [""]. *)
Theorem translate_unit_no_language_check (tm : TMDB) (src : string) (sl tl : langarg)
  (c : conn) :
  fst (translate_unit tm src sl tl c) = c /\
  (forall msg, snd (translate_unit tm src sl tl c) <> inl (LanguageError msg)) /\
  Forall (fun empty =>
    snd (normalize_langs empty c) = inr (PStr "") /\
    snd (translate_unit tm src empty tl c)
    = match snd (normalize_langs tl c) with
      | inl e => inl e
      | inr w =>
          if Z.eqb (min_similarity tm) 0 then inl ZeroDivisionError
          else if query_fails tm src then inl OperationalError
          else inr (rank tm src (query_rows tm (working c) src (PStr "") w))
      end /\
    snd (translate_unit tm src sl empty c)
    = match snd (normalize_langs sl c) with
      | inl e => inl e
      | inr v =>
          if Z.eqb (min_similarity tm) 0 then inl ZeroDivisionError
          else if query_fails tm src then inl OperationalError
          else inr (rank tm src (query_rows tm (working c) src v (PStr "")))
      end)
    [LOne (PStr ""); LList []].
Proof.
  destruct (translate_unit_cases tm src sl tl c) as [Hc Hr].
  split; [rewrite Hc; reflexivity |].
  split.
  - intros msg Hmsg.
    destruct Hr as [[e [He [-> | [-> | ->]]]] | [sl' [tl' [_ [_ H]]]]];
      rewrite Hmsg in *; discriminate.
  - repeat constructor; rewrite translate_unit_eq; simpl;
      destruct (snd (normalize_langs _ c)); reflexivity.
Qed.

(** C6.  For a non-negative [max_candidates], the results of
    [translate_unit] number at most [max_candidates], are sorted by
    non-increasing quality, and among results of equal quality keep the
    order in which the cursor retrieved their rows (for every quality,
    they form a prefix of the retrieved rows of that quality which reach
    [min_similarity]). *)
Theorem translate_unit_capped_sorted_stable (tm : TMDB) (src : string) (sl tl : langarg)
  (c : conn) :
  0 <= max_candidates tm ->
  match snd (translate_unit tm src sl tl c) with
  | inr res =>
      Z.of_nat (List.length res) <= max_candidates tm /\
      Sorted quality_ge res /\
      exists sl' tl',
        snd (normalize_langs sl c) = inr sl' /\ snd (normalize_langs tl c) = inr tl' /\
        forall q, is_prefix (filter (quality_is q) res)
                    (filter (quality_is q)
                       (score_rows tm src (query_rows tm (working c) src sl' tl')))
  | inl _ => True
  end.
Proof.
  intros Hmax.
  destruct (translate_unit_cases tm src sl tl c)
    as [_ [[e [He _]] | [sl' [tl' [Hsl [Htl H]]]]]];
    rewrite ?He, ?H; [exact I |].
  split; [apply rank_length; exact Hmax |].
  split.
  - unfold rank. rewrite py_slice_upto_nonneg by exact Hmax.
    apply firstn_sorted, sort_by_quality_desc_sorted.
  - exists sl', tl'. split; [exact Hsl |]. split; [exact Htl |].
    intros q. unfold rank. rewrite py_slice_upto_nonneg by exact Hmax.
    pose proof (filter_firstn_prefix (quality_is q) (Z.to_nat (max_candidates tm))
                  (sort_by_quality_desc
                     (score_rows tm src (query_rows tm (working c) src sl' tl')))) as Hp.
    rewrite sort_by_quality_desc_stable in Hp. exact Hp.
Qed.

Lemma translate_unit_capped_sorted_stable_witness :
  0 <= max_candidates ranked_tmdb /\
  map m_target (score_rows ranked_tmdb "Hello world"
                  (query_rows ranked_tmdb (working ranked_conn) "Hello world"
                     (PStr "en") (PStr "fr")))
  = ["Bonjour les mondes"; "Bonjour monde"; "Salut monde"; "Allo monde"] /\
  match snd (translate_unit ranked_tmdb "Hello world" (LOne (PStr "en")) (LOne (PStr "fr"))
               ranked_conn) with
  | inr res => map m_target res = ["Bonjour monde"; "Salut monde"]
  | inl _ => False
  end /\
  match snd (translate_unit ranked_tmdb "Hello world" (LOne (PStr "en")) (LOne (PStr "fr"))
               ranked_conn)
  with
  | inr res =>
      Z.of_nat (List.length res) <= max_candidates ranked_tmdb /\
      Sorted quality_ge res /\
      exists sl' tl',
        snd (normalize_langs (LOne (PStr "en")) ranked_conn) = inr sl' /\
        snd (normalize_langs (LOne (PStr "fr")) ranked_conn) = inr tl' /\
        forall q, is_prefix (filter (quality_is q) res)
                    (filter (quality_is q)
                       (score_rows ranked_tmdb "Hello world"
                          (query_rows ranked_tmdb (working ranked_conn) "Hello world" sl' tl')))
  | inl _ => True
  end.
Proof.
  split; [simpl; lia |].
  split; [vm_compute; reflexivity |].
  split; [vm_compute; reflexivity |].
  apply (translate_unit_capped_sorted_stable ranked_tmdb "Hello world"
           (LOne (PStr "en")) (LOne (PStr "fr")) ranked_conn).
  simpl; lia.
Defined.

(** C7.  Every result returned by [translate_unit] has a quality of at
    least [min_similarity]. *)
Theorem translate_unit_quality_reaches_min_similarity (tm : TMDB) (src : string)
  (sl tl : langarg) (c : conn) :
  match snd (translate_unit tm src sl tl c) with
  | inr res => Forall (fun m => (inject_Z (min_similarity tm) <= m_quality m)%Q) res
  | inl _ => True
  end.
Proof.
  destruct (translate_unit_cases tm src sl tl c)
    as [_ [[e [He _]] | [sl' [tl' [_ [_ H]]]]]];
    rewrite ?He, ?H; [exact I |].
  apply rank_above_threshold.
Qed.

(** ** [add_store] *)

Lemma bind_assoc_at {A B C} (m : M A) (f : A -> M B) (g : B -> M C) (c : conn) :
  bind (bind m f) g c = bind m (fun a => bind (f a) g) c.
Proof. unfold bind. destruct (m c) as [c' [e|a]]; reflexivity. Qed.

Lemma bind_ext_at {A B} (m : M A) (f g : A -> M B) (c : conn) :
  (forall a c', f a c' = g a c') -> bind m f c = bind m g c.
Proof. intros H. unfold bind. destruct (m c) as [c' [e|a]]; auto. Qed.

Lemma add_store_loop_filter (us : list tunit) (sl tl : pyval) (now count : Z) {B}
  (k : Z -> M B) (c : conn) :
  bind (add_store_loop us sl tl now count) k c =
  bind (add_units (filter translatable_and_translated us) sl tl now)
    (fun _ => k (count + Z.of_nat (List.length (filter translatable_and_translated us)))) c.
Proof.
  revert count c. induction us as [|u us IH]; intros count c.
  - simpl. unfold bind, ret. rewrite Z.add_0_r. reflexivity.
  - cbn [add_store_loop].
    change (u_istranslatable u && u_istranslated u) with (translatable_and_translated u).
    replace (filter translatable_and_translated (u :: us))
      with (if translatable_and_translated u
            then u :: filter translatable_and_translated us
            else filter translatable_and_translated us) by reflexivity.
    destruct (translatable_and_translated u).
    + cbn [add_units List.length]. rewrite !bind_assoc_at.
      apply bind_ext_at. intros _ c'. rewrite IH.
      apply bind_ext_at. intros _ c''. f_equal. lia.
    + apply IH.
Qed.

(** C10.  [add_store] behaves as inserting, in order and without commit,
    exactly the units for which [istranslatable()] and [istranslated()]
    both hold, then committing when asked, and returns the number of those
    units. *)
Theorem add_store_inserts_translated_units (store : tstore) (source_lang target_lang : pyval)
  (commit : bool) (now : Z) (c : conn) :
  add_store store source_lang target_lang commit now c =
  (add_units (filter translatable_and_translated (units store)) source_lang target_lang now;;
   (if commit then db_commit else ret tt);;
   ret (Z.of_nat (List.length (filter translatable_and_translated (units store))))) c.
Proof.
  unfold add_store. rewrite add_store_loop_filter.
  apply bind_ext_at. intros _ c'. cbv beta. rewrite Z.add_0_l. reflexivity.
Qed.

(** C3 (counterexample).  With empty source and target languages,
    [translate_unit] raises nothing: it runs the query and returns an
    empty list. *)
Lemma translate_unit_empty_languages_no_error :
  translate_unit default_tmdb "Hello world" (LOne (PStr "")) (LOne (PStr "")) empty_conn
  = (empty_conn, inr []).
Proof. vm_compute. reflexivity. Qed.

(** * Further properties of the code *)

(** ** Statements leave the committed tables alone *)

Lemma kc_ret {A} (a : A) : keeps_committed (ret a).
Proof. intros c. reflexivity. Qed.

Lemma kc_raise {A} (e : exc) : keeps_committed (@raise A e).
Proof. intros c. reflexivity. Qed.

Lemma kc_bind {A B} (m : M A) (k : A -> M B) :
  keeps_committed m -> (forall a, keeps_committed (k a)) -> keeps_committed (bind m k).
Proof.
  intros Hm Hk c. unfold bind. specialize (Hm c).
  destruct (m c) as [c' [e|a]]; simpl in *; [exact Hm | rewrite Hk; exact Hm].
Qed.

Lemma kc_try {A} (m : M A) (caught : exc -> bool) (h : exc -> M A) :
  keeps_committed m -> (forall e, keeps_committed (h e)) ->
  keeps_committed (try_except m caught h).
Proof.
  intros Hm Hh c. unfold try_except. specialize (Hm c).
  destruct (m c) as [c' [e|a]]; simpl in *; [| exact Hm].
  destruct (caught e); simpl; [rewrite Hh |]; exact Hm.
Qed.

Lemma kc_rollback : keeps_committed db_rollback.
Proof. intros c. reflexivity. Qed.

Lemma kc_getitem (d : pydict) (k : string) : keeps_committed (getitem d k).
Proof. unfold getitem. destruct (dict_get d k); [apply kc_ret | apply kc_raise]. Qed.

Lemma kc_py_len (v : pyval) : keeps_committed (py_len v).
Proof. unfold py_len. destruct v; [apply kc_ret | apply kc_raise]. Qed.

Lemma kc_insert_source (text ctx lang : pyval) (n : Z) :
  keeps_committed (exec_insert_source text ctx lang n).
Proof.
  intros c. unfold exec_insert_source.
  destruct text, lang; try reflexivity. destruct (existsb _ _); reflexivity.
Qed.

Lemma kc_select_sid (text ctx lang : pyval) : keeps_committed (exec_select_sid text ctx lang).
Proof. intros c. reflexivity. Qed.

Lemma kc_insert_target (sid : Z) (text lang : pyval) (time : Z) :
  keeps_committed (exec_insert_target sid text lang time).
Proof.
  intros c. unfold exec_insert_target.
  destruct text, lang; try reflexivity. destruct (existsb _ _); reflexivity.
Qed.

Create HintDb keeps_committed_db.
#[local] Hint Resolve kc_ret kc_raise kc_rollback kc_getitem kc_py_len kc_insert_source
  kc_select_sid kc_insert_target : keeps_committed_db.

Ltac keeps_committed_tac :=
  repeat (first [ apply kc_bind; intros | apply kc_try; intros
                | match goal with |- keeps_committed (match ?x with _ => _ end) =>
                    destruct x end
                | solve [auto with keeps_committed_db] ]).

Lemma kc_add_source_stmt (u : pydict) (lang : pyval) : keeps_committed (add_source_stmt u lang).
Proof. unfold add_source_stmt. keeps_committed_tac. Qed.

Lemma kc_add_target_stmt (sid : Z) (u : pydict) (lang : pyval) (now : Z) :
  keeps_committed (add_target_stmt sid u lang now).
Proof. unfold add_target_stmt. keeps_committed_tac. Qed.

#[local] Hint Resolve kc_add_source_stmt kc_add_target_stmt : keeps_committed_db.

Lemma kc_add_dict (u : pydict) (sl tl : pyval) (now : Z) :
  keeps_committed (add_dict u sl tl false now).
Proof. unfold add_dict. keeps_committed_tac. Qed.

#[local] Hint Resolve kc_add_dict : keeps_committed_db.

Lemma kc_add_unit (u : tunit) (sl tl : pyval) (now : Z) :
  keeps_committed (add_unit u sl tl false now).
Proof.
  unfold add_unit.
  destruct (negb _); [apply kc_raise |]. destruct (negb _); [apply kc_raise |].
  apply kc_add_dict.
Qed.

#[local] Hint Resolve kc_add_unit : keeps_committed_db.

Lemma kc_add_list_loop (us : list pydict) (sl tl : pyval) (now count : Z) :
  keeps_committed (add_list_loop us sl tl now count).
Proof.
  revert count. induction us as [|u us IH]; intros count; simpl; keeps_committed_tac.
Qed.

Lemma kc_add_store_loop (us : list tunit) (sl tl : pyval) (now count : Z) :
  keeps_committed (add_store_loop us sl tl now count).
Proof.
  revert count. induction us as [|u us IH]; intros count; simpl; keeps_committed_tac.
Qed.

(** X1. With [commit=False] none of the inserts touches the committed
    tables: whatever they insert, and whatever they raise, stays in the
    open transaction. *)
Theorem no_commit_keeps_committed (sl tl : pyval) (now : Z) (c : conn) :
  (forall u, committed (fst (add_dict u sl tl false now c)) = committed c) /\
  (forall u, committed (fst (add_unit u sl tl false now c)) = committed c) /\
  (forall us, committed (fst (add_list us sl tl false now c)) = committed c) /\
  (forall store, committed (fst (add_store store sl tl false now c)) = committed c).
Proof.
  split; [intros u; apply kc_add_dict |].
  split; [intros u; apply kc_add_unit |].
  split.
  - intros us. unfold add_list. revert c.
    change (keeps_committed (count <- add_list_loop us sl tl now 0;;
                             (if false then db_commit else ret tt);; ret count)).
    keeps_committed_tac. apply kc_add_list_loop.
  - intros store. unfold add_store. revert c.
    change (keeps_committed (count <- add_store_loop (units store) sl tl now 0;;
                             (if false then db_commit else ret tt);; ret count)).
    keeps_committed_tac. apply kc_add_store_loop.
Qed.

(** X2. A call of [add_dict] with [commit=True] is all-or-nothing.  When
    the body of its [try] (the two inserts and the commit) completes, it
    returns with everything committed; when the body raises an exception,
    [add_dict] raises that same exception with the connection rolled back
    to the committed tables it started from. *)
Theorem add_dict_commit_all_or_nothing (u : pydict) (sl tl : pyval) (now : Z) (c : conn) :
  let body := (sid <- add_source_stmt u (normalize_code sl);;
               add_target_stmt sid u (normalize_code tl) now;;
               db_commit) in
  let (c', r) := add_dict u sl tl true now c in
  match snd (body c) with
  | inr _ => r = inr tt /\ committed c' = working c'
  | inl e => r = inl e /\ c' = mk_conn (committed c) (committed c)
  end.
Proof.
  cbv zeta. unfold add_dict, try_except, bind.
  pose proof (kc_add_source_stmt u (normalize_code sl) c) as K1.
  destruct (add_source_stmt u (normalize_code sl) c) as [c1 [e|sid]]; simpl in K1 |- *.
  - rewrite K1. auto.
  - pose proof (kc_add_target_stmt sid u (normalize_code tl) now c1) as K2.
    destruct (add_target_stmt sid u (normalize_code tl) now c1) as [c2 [e|[]]];
      simpl in K2 |- *.
    + rewrite K2, K1. auto.
    + auto.
Qed.

(** ** Inserts keep the tables consistent *)

Lemma tables_ok_add_source (db : tables) (r : source_row) (seq tseq : Z) :
  tables_ok db -> s_length r = Z.of_nat (String.length (s_text r)) ->
  tables_ok (mk_tables (sources db ++ [r]) (targets db) seq tseq).
Proof.
  intros [Hl Hf] Hr. split; simpl.
  - apply Forall_app. split; [exact Hl | constructor; [exact Hr | constructor]].
  - intros t Ht. destruct (Hf t Ht) as [s [Hs Hid]].
    exists s. split; [apply in_or_app; left; exact Hs | exact Hid].
Qed.

Lemma tables_ok_add_target (db : tables) (t : target_row) (seq tseq : Z) :
  tables_ok db -> (exists s, In s (sources db) /\ s_sid s = t_sid t) ->
  tables_ok (mk_tables (sources db) (targets db ++ [t]) seq tseq).
Proof.
  intros [Hl Hf] Ht. split; simpl; [exact Hl |].
  intros t' Ht'. apply in_app_or in Ht' as [Ht' | [<- | []]]; auto.
Qed.

Lemma find_some_sid (p : source_row -> bool) (srcs : list source_row) (sid : Z) :
  option_map s_sid (find p srcs) = Some sid -> exists s, In s srcs /\ s_sid s = sid.
Proof.
  destruct (find p srcs) as [s|] eqn:E; simpl; [| discriminate].
  intros H. injection H as <-. exists s. split; [| reflexivity].
  apply find_some in E. apply E.
Qed.

(** The handler of [add_source_stmt]: a look-up, no change. *)
Lemma add_source_handler_ok (u : pydict) (lang : pyval) (c : conn) :
  let (c', r) := (src <- getitem u "source";;
                  ctx <- getitem u "context";;
                  row <- exec_select_sid src ctx lang;;
                  match row with
                  | Some sid => ret sid
                  | None => raise TypeError
                  end) c in
  c' = c /\ (forall sid, r = inr sid -> exists s, In s (sources (working c)) /\ s_sid s = sid).
Proof.
  unfold getitem, bind, exec_select_sid, ret, raise.
  destruct (dict_get u "source") as [src|]; simpl; [| split; [reflexivity | discriminate]].
  destruct (dict_get u "context") as [ctx|]; simpl; [| split; [reflexivity | discriminate]].
  destruct (option_map s_sid _) as [sid|] eqn:E; simpl; split; try reflexivity;
    intros sid' H; try discriminate.
  injection H as <-. eapply find_some_sid. exact E.
Qed.

Lemma add_source_stmt_ok (u : pydict) (lang : pyval) (c : conn) :
  conn_ok c ->
  let (c', r) := add_source_stmt u lang c in
  conn_ok c' /\
  (forall sid, r = inr sid -> exists s, In s (sources (working c')) /\ s_sid s = sid).
Proof.
  intros Hok. unfold add_source_stmt.
  match goal with |- context [try_except _ _ ?h] => set (handler := h) end.
  unfold try_except.
  assert (Hh : forall e c0, conn_ok c0 ->
            let (c', r) := handler e c0 in
            conn_ok c' /\
            (forall sid, r = inr sid -> exists s, In s (sources (working c')) /\ s_sid s = sid)).
  { intros e c0 H0. unfold handler. cbv beta.
    pose proof (add_source_handler_ok u lang c0) as Hx.
    match type of Hx with
    | let (_, _) := ?t in _ => destruct t as [c' r]
    end.
    destruct Hx as [-> Hx]. auto. }
  unfold getitem, bind, py_len, ret, raise, exec_insert_source.
  destruct (dict_get u "source") as [src|]; simpl; [| split; [exact Hok | discriminate]].
  destruct (dict_get u "context") as [ctx|]; simpl; [| split; [exact Hok | discriminate]].
  destruct src as [st|]; simpl; [| split; [exact Hok | discriminate]].
  destruct lang as [l|]; simpl.
  - destruct (existsb _ _); simpl.
    + apply Hh. exact Hok.
    + split.
      * split; [apply Hok |]. apply tables_ok_add_source; [apply Hok | reflexivity].
      * intros sid H. injection H as <-. eexists. split.
        -- apply in_or_app. right. left. reflexivity.
        -- reflexivity.
  - simpl. apply Hh. exact Hok.
Qed.

Lemma add_target_stmt_ok (sid : Z) (u : pydict) (lang : pyval) (now : Z) (c : conn) :
  conn_ok c -> (exists s, In s (sources (working c)) /\ s_sid s = sid) ->
  conn_ok (fst (add_target_stmt sid u lang now c)).
Proof.
  intros Hok Hsid. unfold add_target_stmt, try_except, bind, getitem, ret, raise.
  destruct (dict_get u "target") as [tgt|]; simpl; [| exact Hok].
  unfold exec_insert_target. destruct tgt as [t|], lang as [l|]; simpl; try exact Hok.
  destruct (existsb _ _); simpl; [exact Hok |].
  split; [apply Hok |]. apply tables_ok_add_target; [apply Hok | exact Hsid].
Qed.

Lemma add_dict_ok (u : pydict) (sl tl : pyval) (commit : bool) (now : Z) :
  preserves_ok (add_dict u sl tl commit now).
Proof.
  intros c Hok. unfold add_dict, try_except, bind at 1.
  pose proof (add_source_stmt_ok u (normalize_code sl) c Hok) as H1.
  destruct (add_source_stmt u (normalize_code sl) c) as [c1 [e|sid]]; destruct H1 as [Ok1 Hs1].
  - destruct commit; simpl; [split; apply Ok1 | exact Ok1].
  - unfold bind at 1.
    pose proof (add_target_stmt_ok sid u (normalize_code tl) now c1 Ok1 (Hs1 sid eq_refl))
      as Ok2.
    destruct (add_target_stmt sid u (normalize_code tl) now c1) as [c2 [e|[]]];
      simpl in Ok2.
    + destruct commit; simpl; [split; apply Ok2 | exact Ok2].
    + destruct commit; simpl; [split; apply Ok2 | exact Ok2].
Qed.

Lemma preserves_ok_bind {A B} (m : M A) (k : A -> M B) :
  preserves_ok m -> (forall a, preserves_ok (k a)) -> preserves_ok (bind m k).
Proof.
  intros Hm Hk c Hc. unfold bind. specialize (Hm c Hc).
  destruct (m c) as [c' [e|a]]; simpl in *; [exact Hm | apply Hk; exact Hm].
Qed.

Lemma preserves_ok_ret {A} (a : A) : preserves_ok (ret a).
Proof. intros c H. exact H. Qed.

Lemma preserves_ok_raise {A} (e : exc) : preserves_ok (@raise A e).
Proof. intros c H. exact H. Qed.

Lemma preserves_ok_commit : preserves_ok db_commit.
Proof. intros c H. split; apply H. Qed.

Lemma add_unit_ok (u : tunit) (sl tl : pyval) (commit : bool) (now : Z) :
  preserves_ok (add_unit u sl tl commit now).
Proof.
  unfold add_unit.
  destruct (negb _); [apply preserves_ok_raise |].
  destruct (negb _); [apply preserves_ok_raise |].
  apply add_dict_ok.
Qed.

Create HintDb preserves_ok_db.
#[local] Hint Resolve add_dict_ok add_unit_ok preserves_ok_ret preserves_ok_raise
  preserves_ok_commit : preserves_ok_db.

Ltac preserves_ok_tac :=
  repeat (first [ solve [auto with preserves_ok_db]
                | apply preserves_ok_bind; intros
                | match goal with |- preserves_ok (if ?b then _ else _) => destruct b end ]).

(** X3. Every insert path keeps the tables consistent, committed and
    pending alike, whether it returns or raises: the cached [length] of
    each source equals the length of its text, and every target row
    points at a stored source row. *)
Theorem inserts_keep_tables_ok (sl tl : pyval) (commit : bool) (now : Z) (c : conn) :
  conn_ok c ->
  (forall u, conn_ok (fst (add_dict u sl tl commit now c))) /\
  (forall u, conn_ok (fst (add_unit u sl tl commit now c))) /\
  (forall us, conn_ok (fst (add_list us sl tl commit now c))) /\
  (forall store, conn_ok (fst (add_store store sl tl commit now c))).
Proof.
  intros Hok. split; [intros u; apply add_dict_ok; exact Hok |].
  split; [intros u; apply add_unit_ok; exact Hok |].
  split.
  - intros us. revert c Hok.
    change (preserves_ok (add_list us sl tl commit now)). unfold add_list.
    apply preserves_ok_bind; [| intros; preserves_ok_tac].
    generalize 0. induction us as [|u us IH]; intros count; cbn [add_list_loop];
      preserves_ok_tac.
  - intros store. revert c Hok.
    change (preserves_ok (add_store store sl tl commit now)). unfold add_store.
    apply preserves_ok_bind; [| intros; preserves_ok_tac].
    generalize 0. induction (units store) as [|u us IH]; intros count;
      cbn [add_store_loop]; preserves_ok_tac.
Qed.

Lemma inserts_keep_tables_ok_witness :
  conn_ok empty_conn /\
  ((forall u, conn_ok (fst (add_dict u (PStr "en") (PStr "fr") true 10 empty_conn))) /\
   (forall u, conn_ok (fst (add_unit u (PStr "en") (PStr "fr") true 10 empty_conn))) /\
   (forall us, conn_ok (fst (add_list us (PStr "en") (PStr "fr") true 10 empty_conn))) /\
   (forall store, conn_ok (fst (add_store store (PStr "en") (PStr "fr") true 10 empty_conn)))).
Proof.
  assert (H : conn_ok empty_conn).
  { split; split; simpl; [constructor | intros t [] | constructor | intros t []]. }
  split; [exact H |]. apply (inserts_keep_tables_ok (PStr "en") (PStr "fr") true 10 empty_conn).
  exact H.
Defined.

(** ** Repeating an insert, and [None] values *)

Lemma find_ext {A} (f g : A -> bool) (l : list A) :
  (forall a, f a = g a) -> find f l = find g l.
Proof.
  intros H. induction l as [|a l IH]; simpl; [reflexivity |].
  rewrite H. destruct (g a); [reflexivity | exact IH].
Qed.

Lemma find_none_existsb {A} (f : A -> bool) (l : list A) :
  existsb f l = false -> find f l = None.
Proof.
  induction l as [|a l IH]; simpl; [reflexivity |].
  destruct (f a); [discriminate | exact IH].
Qed.

Lemma find_some_existsb {A} (f : A -> bool) (l : list A) :
  existsb f l = true -> exists a, find f l = Some a.
Proof.
  induction l as [|a l IH]; simpl; [discriminate |].
  destruct (f a); [eexists; reflexivity | exact IH].
Qed.

Lemma find_app_none {A} (f : A -> bool) (l1 l2 : list A) :
  find f l1 = None -> find f (l1 ++ l2) = find f l2.
Proof.
  induction l1 as [|a l1 IH]; simpl; [reflexivity |].
  destruct (f a); [discriminate | exact IH].
Qed.

Lemma find_existsb {A} (f : A -> bool) (l : list A) (a : A) :
  find f l = Some a -> existsb f l = true.
Proof.
  intros H. apply existsb_exists. exists a. split; apply (find_some f l H).
Qed.

Lemma normalize_code_str (a : string) : exists a', normalize_code (PStr a) = PStr a'.
Proof.
  unfold normalize_code. destruct (truthy (PStr a)); eexists; reflexivity.
Qed.

(** The [SELECT] of [add_dict] tests the columns the UNIQUE index tests. *)
Lemma select_pred_is_conflict (s : string) (ctx : pyval) (l : string) (r : source_row) :
  sql_eq (PStr (s_text r)) (PStr s) && sql_eq (s_context r) ctx
  && sql_eq (PStr (s_lang r)) (PStr l) = source_conflict s ctx l r.
Proof. reflexivity. Qed.

Lemma add_source_stmt_str (u : pydict) (s : string) (ctx : pyval) (l : string) (c : conn) :
  dict_get u "source" = Some (PStr s) -> dict_get u "context" = Some ctx ->
  exists c' sid,
    add_source_stmt u (PStr l) c = (c', inr sid) /\
    committed c' = committed c /\ targets (working c') = targets (working c) /\
    (forall x, ctx = PStr x ->
       exists r, find (source_conflict s ctx l) (sources (working c')) = Some r
                 /\ s_sid r = sid).
Proof.
  intros Hs Hc.
  unfold add_source_stmt, try_except, getitem, bind, py_len, ret, raise,
    exec_insert_source, exec_select_sid.
  rewrite Hs, Hc. simpl.
  destruct (existsb (source_conflict s ctx l) (sources (working c))) eqn:E; simpl.
  - destruct (find_some_existsb _ _ E) as [r Hr].
    rewrite (find_ext _ (source_conflict s ctx l)) by (intros; reflexivity).
    rewrite Hr. simpl.
    exists c, (s_sid r). repeat split. intros x _. exists r. auto.
  - eexists. eexists. split; [reflexivity |]. simpl. repeat split.
    intros x ->. rewrite find_app_none by (apply find_none_existsb; exact E).
    simpl. unfold source_conflict. simpl. rewrite !String.eqb_refl. simpl.
    eexists. split; reflexivity.
Qed.

Lemma add_source_stmt_found (u : pydict) (s x l : string) (r : source_row) (c : conn) :
  dict_get u "source" = Some (PStr s) -> dict_get u "context" = Some (PStr x) ->
  find (source_conflict s (PStr x) l) (sources (working c)) = Some r ->
  add_source_stmt u (PStr l) c = (c, inr (s_sid r)).
Proof.
  intros Hs Hc Hr.
  unfold add_source_stmt, try_except, getitem, bind, py_len, ret, raise,
    exec_insert_source, exec_select_sid.
  rewrite Hs, Hc. simpl.
  rewrite (find_existsb _ _ _ Hr). simpl.
  rewrite (find_ext _ (source_conflict s (PStr x) l)) by (intros; reflexivity).
  rewrite Hr. reflexivity.
Qed.

Lemma add_target_stmt_str (sid : Z) (u : pydict) (t l : string) (now : Z) (c : conn) :
  dict_get u "target" = Some (PStr t) ->
  exists c', add_target_stmt sid u (PStr l) now c = (c', inr tt) /\
             existsb (target_conflict sid t l) (targets (working c')) = true /\
             sources (working c') = sources (working c).
Proof.
  intros Ht. unfold add_target_stmt, try_except, getitem, bind, ret, exec_insert_target.
  rewrite Ht. simpl.
  destruct (existsb (target_conflict sid t l) (targets (working c))) eqn:E; simpl.
  - exists c. auto.
  - eexists. split; [reflexivity |]. split; [| reflexivity]. simpl.
    rewrite existsb_app. simpl. rewrite target_conflict_refl, orb_true_r. reflexivity.
Qed.

Lemma add_target_stmt_found (sid : Z) (u : pydict) (t l : string) (now : Z) (c : conn) :
  dict_get u "target" = Some (PStr t) ->
  existsb (target_conflict sid t l) (targets (working c)) = true ->
  add_target_stmt sid u (PStr l) now c = (c, inr tt).
Proof.
  intros Ht E. unfold add_target_stmt, try_except, getitem, bind, ret, exec_insert_target.
  rewrite Ht. simpl. rewrite E. reflexivity.
Qed.

(** X4. With string source, target, languages and a non-NULL context,
    [add_dict] succeeds, and calling it again with the same unit (at any
    later time) changes nothing: the source resolves to the same row and
    the duplicate target is ignored. *)
Theorem add_dict_repeat_is_noop (u : pydict) (s x t sl tl : string) (commit : bool)
  (t1 t2 : Z) (c : conn) :
  dict_get u "source" = Some (PStr s) -> dict_get u "context" = Some (PStr x) ->
  dict_get u "target" = Some (PStr t) ->
  let (c1, r1) := add_dict u (PStr sl) (PStr tl) commit t1 c in
  r1 = inr tt /\ add_dict u (PStr sl) (PStr tl) commit t2 c1 = (c1, inr tt).
Proof.
  intros Hs Hc Ht.
  destruct (normalize_code_str sl) as [sl' Hsl].
  destruct (normalize_code_str tl) as [tl' Htl].
  unfold add_dict. rewrite Hsl, Htl. unfold try_except, bind at 1 3.
  destruct (add_source_stmt_str u s (PStr x) sl' c Hs Hc)
    as (c1 & sid & E1 & _ & _ & F1).
  destruct (F1 x eq_refl) as [r [Fr Hsid]]. subst sid.
  rewrite E1. unfold bind at 1.
  destruct (add_target_stmt_str (s_sid r) u t tl' t1 c1 Ht) as (c2 & E2 & X2 & S2).
  rewrite E2.
  assert (Hw : forall c3, working c3 = working c2 ->
            (sid <- add_source_stmt u (PStr sl') ;;
             add_target_stmt sid u (PStr tl') t2 ;;
             if commit then db_commit else ret tt) c3
            = (if commit then db_commit else ret tt) c3).
  { intros c3 Hw. unfold bind at 1.
    rewrite (add_source_stmt_found u s x sl' r c3 Hs Hc) by (rewrite Hw, S2; exact Fr).
    unfold bind at 1.
    rewrite (add_target_stmt_found (s_sid r) u t tl' t2 c3 Ht) by (rewrite Hw; exact X2).
    reflexivity. }
  destruct commit; simpl.
  - split; [reflexivity |]. rewrite Hw by reflexivity. reflexivity.
  - split; [reflexivity |]. rewrite Hw by reflexivity. reflexivity.
Qed.

Lemma add_dict_repeat_is_noop_witness :
  (dict_get (hello_dict (PStr "greeting")) "source" = Some (PStr "Hello world") /\
   dict_get (hello_dict (PStr "greeting")) "context" = Some (PStr "greeting") /\
   dict_get (hello_dict (PStr "greeting")) "target" = Some (PStr "Bonjour monde")) /\
  (let (c1, r1) := add_dict (hello_dict (PStr "greeting")) (PStr "en") (PStr "fr") true 10
                     empty_conn in
   r1 = inr tt /\
   add_dict (hello_dict (PStr "greeting")) (PStr "en") (PStr "fr") true 20 c1 = (c1, inr tt)).
Proof.
  split; [repeat split; reflexivity |].
  apply (add_dict_repeat_is_noop (hello_dict (PStr "greeting")) "Hello world" "greeting"
           "Bonjour monde" "en" "fr" true 10 20 empty_conn); reflexivity.
Defined.

(** X5. A [None] target is not an error: the NOT NULL violation of the
    target insert is swallowed with the duplicate case, [add_dict] returns
    normally and no target row is added. *)
Theorem add_dict_none_target_skips_target (u : pydict) (s : string) (ctx : pyval)
  (sl tl : string) (commit : bool) (now : Z) (c : conn) :
  dict_get u "source" = Some (PStr s) -> dict_get u "context" = Some ctx ->
  dict_get u "target" = Some PNone ->
  let (c', r) := add_dict u (PStr sl) (PStr tl) commit now c in
  r = inr tt /\ targets (working c') = targets (working c).
Proof.
  intros Hs Hc Ht.
  destruct (normalize_code_str sl) as [sl' Hsl].
  destruct (normalize_code_str tl) as [tl' Htl].
  unfold add_dict. rewrite Hsl, Htl. unfold try_except, bind at 1.
  destruct (add_source_stmt_str u s ctx sl' c Hs Hc) as (c1 & sid & E1 & _ & T1 & _).
  rewrite E1. unfold bind at 1.
  unfold add_target_stmt, try_except, getitem, bind at 1. rewrite Ht.
  destruct commit; simpl; split; auto.
Qed.

Lemma add_dict_none_target_skips_target_witness :
  (dict_get [("source", PStr "Hello world"); ("target", PNone); ("context", PNone)] "source"
     = Some (PStr "Hello world") /\
   dict_get [("source", PStr "Hello world"); ("target", PNone); ("context", PNone)] "context"
     = Some PNone /\
   dict_get [("source", PStr "Hello world"); ("target", PNone); ("context", PNone)] "target"
     = Some PNone) /\
  (let (c', r) := add_dict [("source", PStr "Hello world"); ("target", PNone);
                            ("context", PNone)] (PStr "en") (PStr "fr") true 10 empty_conn in
   r = inr tt /\ targets (working c') = targets (working empty_conn)).
Proof.
  split; [repeat split; reflexivity |].
  apply (add_dict_none_target_skips_target _ "Hello world" PNone "en" "fr" true 10
           empty_conn); reflexivity.
Defined.

(** X6. [add_dict] itself does not check the source language (only
    [add_unit] does): with [source_lang=None] the NOT NULL violation sends
    it to the look-up, which finds no row, and unpacking [None] raises
    TypeError; with [commit=True] the connection is rolled back, otherwise
    it is left as it was. *)
Theorem add_dict_none_source_lang (u : pydict) (s : string) (ctx tl : pyval)
  (commit : bool) (now : Z) (c : conn) :
  dict_get u "source" = Some (PStr s) -> dict_get u "context" = Some ctx ->
  add_dict u PNone tl commit now c
  = (if commit then mk_conn (committed c) (committed c) else c, inl TypeError).
Proof.
  intros Hs Hc.
  unfold add_dict, try_except, add_source_stmt, getitem, bind, py_len, ret, raise,
    exec_insert_source, exec_select_sid, db_rollback.
  rewrite Hs, Hc. simpl. unfold try_except, is_integrity_error. simpl.
  rewrite find_none_existsb.
  - destruct commit; reflexivity.
  - induction (sources (working c)) as [|r l IH]; simpl; [reflexivity |].
    rewrite andb_false_r. exact IH.
Qed.

Lemma add_dict_none_source_lang_witness :
  (dict_get (hello_dict PNone) "source" = Some (PStr "Hello world") /\
   dict_get (hello_dict PNone) "context" = Some PNone) /\
  add_dict (hello_dict PNone) PNone (PStr "fr") true 10 empty_conn
  = (mk_conn (committed empty_conn) (committed empty_conn), inl TypeError).
Proof.
  split; [split; reflexivity |].
  apply (add_dict_none_source_lang (hello_dict PNone) "Hello world" PNone (PStr "fr") true 10
           empty_conn); reflexivity.
Defined.

(** ** The length window *)

Lemma window_limits (length min_similarity max_length : Z) :
  2 <= min_levenshtein_length length min_similarity /\
  max_levenshtein_length length min_similarity max_length <= max_length.
Proof.
  split.
  - unfold min_levenshtein_length, py_max.
    apply Z.le_trans with (Qceiling (inject_Z 2)); [rewrite Qceiling_Z; lia |].
    apply Qceiling_resp_le.
    match goal with |- context [Qle_bool ?a ?b] => destruct (Qle_bool a b) eqn:E end.
    + apply Qle_bool_iff. exact E.
    + apply Qle_refl.
  - unfold max_levenshtein_length, py_min.
    apply Z.le_trans with (Qfloor (inject_Z max_length)); [| rewrite Qfloor_Z; lia].
    apply Qfloor_resp_le.
    match goal with |- context [Qle_bool ?a ?b] => destruct (Qle_bool a b) eqn:E end.
    + apply Qle_bool_iff. exact E.
    + apply Qle_refl.
Qed.

(** ** Errors of [translate_unit] *)

Lemma strs_of_none (vs : list pyval) : strs_of vs = None <-> In PNone vs.
Proof.
  induction vs as [|[s|] vs IH]; simpl.
  - split; [discriminate | contradiction].
  - rewrite <- IH. destruct (strs_of vs); simpl.
    + split; [discriminate | intros [H | H]; discriminate].
    + split; auto.
  - split; auto.
Qed.

Lemma normalize_code_none (v : pyval) : normalize_code v = PNone <-> v = PNone.
Proof.
  destruct v as [s|]; unfold normalize_code; simpl; [| tauto].
  destruct s; simpl; split; congruence.
Qed.

Lemma in_none_map_normalize (vs : list pyval) :
  In PNone (map normalize_code vs) <-> In PNone vs.
Proof.
  rewrite in_map_iff. split.
  - intros [v [Hv Hin]]. apply (proj1 (normalize_code_none v)) in Hv.
    rewrite Hv in Hin. exact Hin.
  - intros H. exists PNone. auto.
Qed.

Lemma normalize_langs_cases (l : langarg) (c : conn) :
  (has_none l -> normalize_langs l c = (c, inl TypeError)) /\
  (~ has_none l -> exists v, normalize_langs l c = (c, inr v)).
Proof.
  destruct l as [v | vs]; simpl.
  - split; [contradiction |]. intros _. eexists. reflexivity.
  - unfold py_join, bind, ret, raise. split.
    + intros H. rewrite <- in_none_map_normalize, <- strs_of_none in H.
      rewrite H. reflexivity.
    + intros H. rewrite <- in_none_map_normalize, <- strs_of_none in H.
      destruct (strs_of (map normalize_code vs)); [| contradiction].
      eexists. reflexivity.
Qed.

Lemma has_none_dec (l : langarg) : {has_none l} + {~ has_none l}.
Proof.
  destruct l as [v | vs]; simpl; [right; auto |].
  apply in_dec. decide equality. apply string_dec.
Defined.

(** X10. [translate_unit] raises TypeError exactly when one of its language
    arguments is a list holding [None] (from [",".join]); a single [None]
    language raises nothing. *)
Theorem translate_unit_type_error_iff (tm : TMDB) (src : string) (sl tl : langarg)
  (c : conn) :
  snd (translate_unit tm src sl tl c) = inl TypeError <-> has_none sl \/ has_none tl.
Proof.
  destruct (normalize_langs_cases sl c) as [Hs1 Hs2].
  destruct (normalize_langs_cases tl c) as [Ht1 Ht2].
  rewrite translate_unit_eq. simpl.
  destruct (has_none_dec sl) as [Hs | Hs].
  - rewrite (Hs1 Hs). simpl. tauto.
  - destruct (Hs2 Hs) as [v Hv]. rewrite Hv. simpl.
    destruct (has_none_dec tl) as [Ht | Ht].
    + rewrite (Ht1 Ht). simpl. tauto.
    + destruct (Ht2 Ht) as [w Hw]. rewrite Hw. simpl.
      destruct (Z.eqb (min_similarity tm) 0); [| destruct (query_fails tm src)];
        (split; [intros H; discriminate H | tauto]).
Qed.

(** ** Where the candidates come from *)

Lemma join_rows_forall (db : tables) (keep : source_row -> bool) (tl : pyval) :
  Forall (fun r => exists s t, In s (sources db) /\ In t (targets db) /\ keep s = true /\
            t_sid t = s_sid s /\ sql_eq (PStr (t_lang t)) tl = true /\
            r = mk_row (s_text s) (t_text t) (s_context s) (s_lang s) (t_lang t))
    (join_rows db keep tl).
Proof.
  apply Forall_forall. intros r Hr. unfold join_rows in Hr.
  apply in_flat_map in Hr as [s [Hs Hr]].
  destruct (keep s) eqn:K; [| contradiction].
  apply in_map_iff in Hr as [t [<- Ht]].
  apply filter_In in Ht as [Ht Hf]. apply andb_prop in Hf as [H1 H2].
  apply Z.eqb_eq in H1. exists s, t. auto 7.
Qed.

Lemma query_rows_stored (tm : TMDB) (db : tables) (src : string) (sl tl : pyval) :
  Forall (fun r => exists s t, stored_match db src tm sl tl s t /\
            r = mk_row (s_text s) (t_text t) (s_context s) (s_lang s) (t_lang t))
    (query_rows tm db src sl tl).
Proof.
  unfold query_rows.
  match goal with |- context [if ?b then _ else _] => destruct b end;
  [destruct (fts_query tm _); [| constructor] |];
  (eapply Forall_impl; [| apply join_rows_forall]);
  intros r (s & t & Hs & Ht & K & Hsid & Htl & ->);
  exists s, t; (split; [| reflexivity]);
  repeat (apply andb_prop in K as [K ?]); unfold in_length in *;
  repeat match goal with H : (_ && _)%bool = true |- _ => apply andb_prop in H as [? ?] end;
  repeat match goal with H : Z.leb _ _ = true |- _ => apply Z.leb_le in H end;
  unfold stored_match; repeat split; assumption.
Qed.

Lemma score_rows_from_rows (tm : TMDB) (src : string) (rows : list row) :
  Forall (fun m => exists r, In r rows /\ m_source m = r_source r /\
            m_target m = r_target r /\ m_context m = r_context r)
    (score_rows tm src rows).
Proof.
  induction rows as [|r rows IH]; simpl; [constructor |].
  assert (IH' : Forall (fun m => exists r', (r = r' \/ In r' rows) /\ m_source m = r_source r' /\
                          m_target m = r_target r' /\ m_context m = r_context r')
                  (score_rows tm src rows)).
  { eapply Forall_impl; [| exact IH]. intros m (r' & ? & ?). exists r'. auto. }
  destruct (Qle_bool _ _); [| exact IH'].
  constructor; [| exact IH']. exists r. simpl. auto.
Qed.

Lemma translate_unit_stored (tm : TMDB) (src : string) (sl tl : langarg) (c : conn) :
  match snd (translate_unit tm src sl tl c) with
  | inr res =>
      exists sl' tl',
        snd (normalize_langs sl c) = inr sl' /\ snd (normalize_langs tl c) = inr tl' /\
        Forall (fun m => exists s t, stored_match (working c) src tm sl' tl' s t /\
                  m_source m = s_text s /\ m_target m = t_text t /\
                  m_context m = s_context s) res
  | inl _ => True
  end.
Proof.
  destruct (translate_unit_cases tm src sl tl c)
    as [_ [[e [He _]] | [sl' [tl' [Hsl [Htl H]]]]]];
    rewrite ?He, ?H; [exact I |].
  exists sl', tl'. split; [exact Hsl |]. split; [exact Htl |]. unfold rank.
  apply py_slice_upto_forall, sort_by_quality_desc_forall.
  pose proof (query_rows_stored tm (working c) src sl' tl') as Hq.
  eapply Forall_impl; [| apply score_rows_from_rows].
  intros m (r & Hr & Hs & Ht & Hc).
  rewrite Forall_forall in Hq. destruct (Hq r Hr) as (s & t & Hst & ->).
  exists s, t. auto.
Qed.

(** X13. Every suggestion [translate_unit] returns is made of a stored
    source and one of its stored targets (text, translation and context
    as stored), the source in the normalised source language argument and
    the target in the normalised target language argument, the source's
    stored length within the length window of the query. *)
Theorem translate_unit_results_stored (tm : TMDB) (src : string) (sl tl : langarg)
  (c : conn) :
  match snd (translate_unit tm src sl tl c) with
  | inr res =>
      exists sl' tl',
        snd (normalize_langs sl c) = inr sl' /\ snd (normalize_langs tl c) = inr tl' /\
        Forall (fun m => exists s t, stored_match (working c) src tm sl' tl' s t /\
                  m_source m = s_text s /\ m_target m = t_text t /\
                  m_context m = s_context s) res
  | inl _ => True
  end.
Proof. apply translate_unit_stored. Qed.

(** X14. On tables filled by [add_dict] (the cached [length] column is the
    length of the text), every suggestion's source text has between 2 and
    [max_length] characters. *)
Theorem translate_unit_result_lengths (tm : TMDB) (src : string) (sl tl : langarg)
  (c : conn) :
  tables_ok (working c) ->
  match snd (translate_unit tm src sl tl c) with
  | inr res =>
      Forall (fun m => 2 <= Z.of_nat (String.length (m_source m)) <= max_length tm) res
  | inl _ => True
  end.
Proof.
  intros [Hlen _].
  pose proof (translate_unit_stored tm src sl tl c) as H.
  destruct (snd (translate_unit tm src sl tl c)) as [e | res]; [exact I |].
  destruct H as (sl' & tl' & _ & _ & H).
  eapply Forall_impl; [| exact H].
  intros m (s & t & (Hs & _ & _ & _ & _ & Hmin & Hmax) & Hsrc & _).
  rewrite Forall_forall in Hlen. specialize (Hlen s Hs).
  destruct (window_limits (Z.of_nat (String.length src)) (min_similarity tm) (max_length tm)).
  rewrite Hsrc. lia.
Qed.

Lemma translate_unit_result_lengths_witness :
  let c := fst (add_dict (hello_dict (PStr "")) (PStr "en") (PStr "fr") true 10 empty_conn) in
  tables_ok (working c) /\
  match snd (translate_unit default_tmdb "Hello world" (LOne (PStr "en")) (LOne (PStr "fr")) c)
  with
  | inr res =>
      Forall (fun m => 2 <= Z.of_nat (String.length (m_source m)) <= max_length default_tmdb)
        res
  | inl _ => True
  end.
Proof.
  cbv zeta.
  assert (Hok : tables_ok (working (fst (add_dict (hello_dict (PStr "")) (PStr "en")
                                             (PStr "fr") true 10 empty_conn)))).
  { vm_compute. split.
    - repeat constructor.
    - intros t [<- | []]. eexists. split; [left; reflexivity | reflexivity]. }
  split; [exact Hok |].
  apply (translate_unit_result_lengths default_tmdb "Hello world"
           (LOne (PStr "en")) (LOne (PStr "fr"))).
  exact Hok.
Defined.

(** ** What truncation drops *)

Lemma insert_by_quality_perm (m : match_result) (l : list match_result) :
  Permutation (insert_by_quality m l) (m :: l).
Proof.
  induction l as [|h t IH]; simpl; [reflexivity |].
  destruct (Qle_bool (m_quality h) (m_quality m)); [reflexivity |].
  eapply perm_trans; [apply perm_skip, IH | apply perm_swap].
Qed.

Lemma sort_by_quality_desc_perm (l : list match_result) :
  Permutation (sort_by_quality_desc l) l.
Proof.
  induction l as [|m l IH]; simpl; [reflexivity |].
  eapply perm_trans; [apply insert_by_quality_perm | apply perm_skip, IH].
Qed.

Lemma py_slice_upto_firstn {A} (l : list A) (n : Z) :
  exists k, py_slice_upto l n = firstn k l.
Proof. unfold py_slice_upto. destruct (Z.leb 0 n); eexists; reflexivity. Qed.

Lemma forall_skipn {A} (P : A -> Prop) (k : nat) (l : list A) :
  Forall P l -> Forall P (skipn k l).
Proof.
  revert l. induction k as [|k IH]; intros l H; [exact H |].
  destruct l as [|a l]; [constructor |]. inversion H; subst. apply IH. assumption.
Qed.

Lemma strongly_sorted_split {A} (R : A -> A -> Prop) (l : list A) (k : nat) :
  StronglySorted R l ->
  Forall (fun d => Forall (fun m => R m d) (firstn k l)) (skipn k l).
Proof.
  revert k. induction l as [|a l IH]; intros [|k] H; simpl.
  - constructor.
  - constructor.
  - apply Forall_forall. intros d _. constructor.
  - apply StronglySorted_inv in H as [Hl Ha].
    specialize (IH k Hl).
    pose proof (forall_skipn (R a) k l Ha) as Hd.
    rewrite Forall_forall in IH, Hd |- *. intros d Hin. constructor; auto.
Qed.

Lemma rank_keeps_best (tm : TMDB) (src : string) (rows : list row) :
  exists dropped,
    Permutation (rank tm src rows ++ dropped) (score_rows tm src rows) /\
    Forall (fun d => Forall (fun m => (m_quality d <= m_quality m)%Q) (rank tm src rows))
      dropped.
Proof.
  unfold rank.
  set (sorted := sort_by_quality_desc (score_rows tm src rows)).
  destruct (py_slice_upto_firstn sorted (max_candidates tm)) as [k Hk]. rewrite Hk.
  exists (skipn k sorted). split.
  - rewrite firstn_skipn. apply sort_by_quality_desc_perm.
  - apply (strongly_sorted_split quality_ge).
    apply Sorted_StronglySorted; [| apply sort_by_quality_desc_sorted].
    intros x y z Hxy Hyz. unfold quality_ge in *. eapply Qle_trans; eassumption.
Qed.

(** X15. Truncating to [max_candidates] keeps the best-scored candidates:
    the returned results and the ones cut off together are exactly the
    candidates reaching [min_similarity] (up to order), and no candidate
    cut off has a higher quality than any returned one. *)
Theorem translate_unit_keeps_best (tm : TMDB) (src : string) (sl tl : langarg) (c : conn) :
  match snd (translate_unit tm src sl tl c) with
  | inr res =>
      exists sl' tl' dropped,
        snd (normalize_langs sl c) = inr sl' /\ snd (normalize_langs tl c) = inr tl' /\
        Permutation (res ++ dropped)
          (score_rows tm src (query_rows tm (working c) src sl' tl')) /\
        Forall (fun d => Forall (fun m => (m_quality d <= m_quality m)%Q) res) dropped
  | inl _ => True
  end.
Proof.
  destruct (translate_unit_cases tm src sl tl c)
    as [_ [[e [He _]] | [sl' [tl' [Hsl [Htl H]]]]]];
    rewrite ?He, ?H; [exact I |].
  destruct (rank_keeps_best tm src (query_rows tm (working c) src sl' tl'))
    as [dropped [Hp Hd]].
  exists sl', tl', dropped. auto.
Qed.

(** ** The connection cache *)

Lemma files_get_set (l : list (string * list (thread * handle))) (f f1 : string)
  (v : list (thread * handle)) :
  files_get (files_set l f v) f1 = if String.eqb f1 f then Some v else files_get l f1.
Proof.
  induction l as [|[f' v'] l IH]; simpl.
  - destruct (String.eqb f1 f); reflexivity.
  - destruct (String.eqb f f') eqn:E; simpl.
    + apply String.eqb_eq in E. subst f'. destruct (String.eqb f1 f); reflexivity.
    + rewrite IH. destruct (String.eqb f1 f) eqn:E1; [| reflexivity].
      apply String.eqb_eq in E1. subst f1. rewrite E. reflexivity.
Qed.

Lemma threads_get_set (l : list (thread * handle)) (t t1 : thread) (h : handle) :
  threads_get (threads_set l t h) t1 = if Nat.eqb t1 t then Some h else threads_get l t1.
Proof.
  induction l as [|[t' h'] l IH]; simpl.
  - destruct (Nat.eqb t1 t); reflexivity.
  - destruct (Nat.eqb t t') eqn:E; simpl.
    + apply Nat.eqb_eq in E. subst t'. destruct (Nat.eqb t1 t); reflexivity.
    + rewrite IH. destruct (Nat.eqb t1 t) eqn:E1; [| reflexivity].
      apply Nat.eqb_eq in E1. subst t1. rewrite E. reflexivity.
Qed.

Lemma register_db_file_lookup (reg : registry) (f f1 : string) :
  files_get (tm_dbs (register_db_file reg f)) f1 =
  match files_get (tm_dbs reg) f1 with
  | Some cache => Some cache
  | None => if String.eqb f1 f then Some [] else None
  end.
Proof.
  unfold register_db_file. destruct (files_get (tm_dbs reg) f) eqn:E.
  - destruct (files_get (tm_dbs reg) f1) eqn:E1; [reflexivity |].
    destruct (String.eqb f1 f) eqn:Ef; [| reflexivity].
    apply String.eqb_eq in Ef. subst. congruence.
  - simpl. rewrite files_get_set.
    destruct (String.eqb f1 f) eqn:Ef.
    + apply String.eqb_eq in Ef. subst. rewrite E. reflexivity.
    + destruct (files_get (tm_dbs reg) f1); reflexivity.
Qed.

(** The cache after [get_connection]: the old entries, and the new pair
    of the calling thread. *)
Lemma get_connection_lookup (reg : registry) (f : string) (t : thread) (i : nat)
  (f1 : string) (c1 : list (thread * handle)) (t1 : thread) (h1 : handle) :
  files_get (tm_dbs (fst (get_connection reg f t i))) f1 = Some c1 ->
  threads_get c1 t1 = Some h1 ->
  (f1 = f /\ t1 = t /\ h1 = next_handle reg /\ next_handle (fst (get_connection reg f t i))
                                              = S (next_handle reg)) \/
  (exists c0, files_get (tm_dbs reg) f1 = Some c0 /\ threads_get c0 t1 = Some h1).
Proof.
  unfold get_connection.
  destruct (files_get (tm_dbs reg) f) as [cache|] eqn:Ef; simpl; [| intros; right; eauto].
  destruct (threads_get cache t) as [h|] eqn:Et; simpl; [intros; right; eauto |].
  rewrite files_get_set. destruct (String.eqb f1 f) eqn:E1.
  - apply String.eqb_eq in E1. subst f1. intros [= <-].
    rewrite threads_get_set. destruct (Nat.eqb t1 t) eqn:E2.
    + apply Nat.eqb_eq in E2. intros [= <-]. left. auto.
    + intros H. right. eauto.
  - intros H1 H2. right. eauto.
Qed.

Lemma get_connection_keeps (reg : registry) (f : string) (t : thread) (i : nat)
  (f1 : string) (c0 : list (thread * handle)) (t1 : thread) (h1 : handle) :
  files_get (tm_dbs reg) f1 = Some c0 -> threads_get c0 t1 = Some h1 ->
  exists c1, files_get (tm_dbs (fst (get_connection reg f t i))) f1 = Some c1 /\
             threads_get c1 t1 = Some h1.
Proof.
  intros H0 H1. unfold get_connection.
  destruct (files_get (tm_dbs reg) f) as [cache|] eqn:Ef; simpl; [| eauto].
  destruct (threads_get cache t) as [h|] eqn:Et; simpl; [eauto |].
  rewrite files_get_set. destruct (String.eqb f1 f) eqn:E1.
  - apply String.eqb_eq in E1. subst f1. rewrite Ef in H0. injection H0 as <-.
    eexists. split; [reflexivity |]. rewrite threads_get_set.
    destruct (Nat.eqb t1 t) eqn:E2; [| exact H1].
    apply Nat.eqb_eq in E2. subst. congruence.
  - eauto.
Qed.

Lemma get_connection_result (reg : registry) (f : string) (t : thread) (i : nat)
  (h : handle) (j : nat) :
  snd (get_connection reg f t i) = Some (h, j) ->
  j = i /\ exists c1, files_get (tm_dbs (fst (get_connection reg f t i))) f = Some c1 /\
                      threads_get c1 t = Some h.
Proof.
  unfold get_connection.
  destruct (files_get (tm_dbs reg) f) as [cache|] eqn:Ef; simpl; [| discriminate].
  destruct (threads_get cache t) as [h'|] eqn:Et; simpl; intros [= <- <-]; split; eauto.
  rewrite files_get_set, String.eqb_refl. eexists. split; [reflexivity |].
  rewrite threads_get_set, Nat.eqb_refl. reflexivity.
Qed.

Lemma register_db_file_ok (reg : registry) (f : string) :
  registry_ok reg -> registry_ok (register_db_file reg f).
Proof.
  intros [Hlt Huniq].
  assert (Hl : forall f1 c1 t1 h1, files_get (tm_dbs (register_db_file reg f)) f1 = Some c1 ->
                 threads_get c1 t1 = Some h1 -> files_get (tm_dbs reg) f1 = Some c1).
  { intros f1 c1 t1 h1. rewrite register_db_file_lookup.
    destruct (files_get (tm_dbs reg) f1); [auto |].
    destruct (String.eqb f1 f); [intros [= <-]; discriminate | discriminate]. }
  assert (Hn : next_handle (register_db_file reg f) = next_handle reg)
    by (unfold register_db_file; destruct (files_get _ _); reflexivity).
  split.
  - intros f1 c1 t1 h1 H1 H2. rewrite Hn. eapply Hlt; [eapply Hl |]; eassumption.
  - intros f1 f2 c1 c2 t1 t2 h H1 H2 H3 H4.
    eapply Huniq; [eapply Hl | | eapply Hl |]; eassumption.
Qed.

Lemma get_connection_ok (reg : registry) (f : string) (t : thread) (i : nat) :
  registry_ok reg -> registry_ok (fst (get_connection reg f t i)).
Proof.
  intros [Hlt Huniq].
  assert (Hn : (next_handle reg <= next_handle (fst (get_connection reg f t i)))%nat).
  { unfold get_connection. destruct (files_get _ _); [| simpl; lia].
    destruct (threads_get _ _); simpl; lia. }
  split.
  - intros f1 c1 t1 h1 H1 H2.
    destruct (get_connection_lookup reg f t i f1 c1 t1 h1 H1 H2)
      as [(_ & _ & -> & ->) | (c0 & H3 & H4)]; [lia |].
    specialize (Hlt _ _ _ _ H3 H4). lia.
  - intros f1 f2 c1 c2 t1 t2 h H1 H2 H3 H4.
    destruct (get_connection_lookup reg f t i f1 c1 t1 h H1 H2)
      as [(-> & -> & Hh1 & _) | (c0 & H5 & H6)];
    destruct (get_connection_lookup reg f t i f2 c2 t2 h H3 H4)
      as [(-> & -> & Hh2 & _) | (c0' & H7 & H8)].
    + auto.
    + specialize (Hlt _ _ _ _ H7 H8). lia.
    + specialize (Hlt _ _ _ _ H5 H6). lia.
    + eapply Huniq; eassumption.
Qed.

(** X16. Two instances on the same database file share the connection of a
    thread: after one instance registers the file and makes its pair, a
    second [__init__] on the file keeps the cache, and its [cursor] in the
    same thread is the cursor of that very pair, with no new connection
    made. *)
Theorem same_file_shares_thread_connection (reg : registry) (f : string) (t : thread) :
  let (reg2, r1) := get_connection (register_db_file reg f) f t 0 in
  exists h, r1 = Some (h, 0%nat) /\
            get_connection (register_db_file reg2 f) f t 1 = (reg2, Some (h, 1%nat)).
Proof.
  assert (Hreg : exists cache, files_get (tm_dbs (register_db_file reg f)) f = Some cache).
  { rewrite register_db_file_lookup, String.eqb_refl.
    destruct (files_get (tm_dbs reg) f); eexists; reflexivity. }
  destruct Hreg as [cache Hc].
  unfold get_connection at 1. rewrite Hc.
  destruct (threads_get cache t) as [h|] eqn:Et.
  - exists h. split; [reflexivity |].
    unfold register_db_file at 1. rewrite Hc.
    unfold get_connection. rewrite Hc, Et. reflexivity.
  - exists (next_handle (register_db_file reg f)). split; [reflexivity |].
    unfold register_db_file at 1. simpl. rewrite files_get_set, String.eqb_refl.
    unfold get_connection. simpl. rewrite files_get_set, String.eqb_refl.
    rewrite threads_get_set, Nat.eqb_refl. reflexivity.
Qed.


Lemma empty_registry_ok : registry_ok (mk_registry [] 0%nat).
Proof. split; simpl; intros; discriminate. Qed.


(** X18. Different threads, or different database files, never get the same
    connection: two [_get_connection] calls for distinct (file, thread)
    keys return components of distinct pairs. *)
Theorem distinct_keys_distinct_connections (reg reg1 reg2 : registry) (f1 f2 : string)
  (t1 t2 : thread) (i j : nat) (h1 h2 : handle) :
  registry_ok reg ->
  get_connection reg f1 t1 i = (reg1, Some (h1, i)) ->
  get_connection reg1 f2 t2 j = (reg2, Some (h2, j)) ->
  f1 <> f2 \/ t1 <> t2 -> h1 <> h2.
Proof.
  intros Hok E1 E2 Hne Heq. subst h2.
  destruct (get_connection_result reg f1 t1 i h1 i) as [_ (c1 & H1 & H2)];
    [rewrite E1; reflexivity |].
  rewrite E1 in H1. simpl in H1.
  destruct (get_connection_keeps reg1 f2 t2 j f1 c1 t1 h1 H1 H2) as (c1' & H1' & H2').
  destruct (get_connection_result reg1 f2 t2 j h1 j) as [_ (c2 & H3 & H4)];
    [rewrite E2; reflexivity |].
  pose proof (get_connection_ok reg1 f2 t2 j
                (eq_ind _ registry_ok (get_connection_ok reg f1 t1 i Hok) _
                   (f_equal fst E1))) as [_ Hu].
  destruct (Hu f1 f2 c1' c2 t1 t2 h1 H1' H2' H3 H4). tauto.
Qed.

Lemma distinct_keys_distinct_connections_witness :
  (registry_ok (register_db_file (mk_registry [] 0%nat) "tm.db") /\
   get_connection (register_db_file (mk_registry [] 0%nat) "tm.db") "tm.db" 1%nat 0%nat
   = (fst (get_connection (register_db_file (mk_registry [] 0%nat) "tm.db") "tm.db" 1%nat 0%nat),
      Some (0%nat, 0%nat)) /\
   get_connection (fst (get_connection (register_db_file (mk_registry [] 0%nat) "tm.db") "tm.db" 1%nat 0%nat))
     "tm.db" 2%nat 0%nat
   = (fst (get_connection
             (fst (get_connection (register_db_file (mk_registry [] 0%nat) "tm.db") "tm.db" 1%nat 0%nat))
             "tm.db" 2%nat 0%nat), Some (1%nat, 0%nat)) /\
   ("tm.db" <> "tm.db" \/ (1 <> 2)%nat)) /\
  (0 <> 1)%nat.
Proof.
  assert (Hok : registry_ok (register_db_file (mk_registry [] 0%nat) "tm.db"))
    by (apply register_db_file_ok, empty_registry_ok).
  split; [split; [exact Hok | split; [reflexivity | split; [reflexivity | right; lia]]] |].
  apply (distinct_keys_distinct_connections (register_db_file (mk_registry [] 0%nat) "tm.db")
           (fst (get_connection (register_db_file (mk_registry [] 0%nat) "tm.db") "tm.db" 1%nat 0%nat))
           (fst (get_connection
                   (fst (get_connection (register_db_file (mk_registry [] 0%nat) "tm.db")
                           "tm.db" 1%nat 0%nat)) "tm.db" 2%nat 0%nat))
           "tm.db" "tm.db" 1%nat 2%nat 0%nat 0%nat 0%nat 1%nat).
  - exact Hok.
  - reflexivity.
  - reflexivity.
  - right. lia.
Defined.
